(** * WasteTracker: the report store, the upload flow, the map overlay and
      the detail modal

    A shallow embedding of the React components of the waste-management
    application:

    - [Home] (the page component holding the reports collection, the bulk
      fetch and the INSERT subscription),
    - [UploadComponent] (file validation, location, storage upload, insert),
    - [MapComponent] (the heat-map layer's click handler),
    - [ReportModal] (the detail view of one report).

    React state is a record, a handler is a function on that record, and the
    asynchronous handlers run in a small state-and-exception monad that also
    records, in order, every call that leaves the component. *)

From Stdlib Require Import ZArith List String Ascii Bool Lia Sorted.
From Stdlib Require Import DecimalString DecimalN SpecFloat.
Import ListNotations.

Local Open Scope string_scope.

(** ** The host language *)

Module JS.

(** A thrown value: [Error] objects carry a message, anything else can be
    thrown as well ([error instanceof Error] tells them apart). *)
Inductive Thrown : Type :=
| ErrorObj (message : string)
| OtherThrown.

(** How an awaited promise settles. *)
Inductive Outcome (A : Type) : Type :=
| Resolved (a : A)
| Rejected (t : Thrown).
Arguments Resolved {A} a.
Arguments Rejected {A} t.

(** [s.startsWith(p)] *)
Definition startsWith (s p : string) : bool := String.prefix p s.

(** [s.includes(p)] *)
Definition includes (s p : string) : bool :=
  match String.index 0 p s with
  | Some _ => true
  | None => match p with EmptyString => true | _ => false end
  end.

(** [s.split(sep)] for a one-character separator: never empty. *)
Fixpoint split (sep : ascii) (s : string) : list string :=
  match s with
  | EmptyString => [EmptyString]
  | String c s' =>
      if Ascii.eqb c sep then EmptyString :: split sep s'
      else match split sep s' with
           | [] => [String c EmptyString]
           | seg :: segs => String c seg :: segs
           end
  end.

(** [a.pop()] read as an expression: the last element, [undefined] on an
    empty array. *)
Definition pop (a : list string) : option string :=
  match a with
  | [] => None
  | x :: xs => Some (List.last xs x)
  end.

(** A value interpolated in a template literal. *)
Definition interpolate (v : option string) : string :=
  match v with
  | Some s => s
  | None => "undefined"
  end.

(** [s.substring(n)] *)
Definition substringFrom (n : nat) (s : string) : string :=
  String.substring n (String.length s - n) s.

(** Decimal digits of a non-negative integer, [0] printed as ["0"]. *)
Definition digits (n : N) : string :=
  NilEmpty.string_of_uint (N.to_uint n).

(** [n] copies of the character ['0']. *)
Fixpoint zeros (n : nat) : string :=
  match n with
  | O => EmptyString
  | S k => String "0" (zeros k)
  end.

(** The first [n] characters, and the rest. *)
Fixpoint take (n : nat) (s : string) : string :=
  match n, s with
  | S k, String c s' => String c (take k s')
  | _, _ => EmptyString
  end.

Fixpoint drop (n : nat) (s : string) : string :=
  match n, s with
  | S k, String _ s' => drop k s'
  | _, _ => s
  end.

(** *** Numbers

    A JavaScript number is an IEEE 754 binary64 value; [spec_float] is the
    Standard Library's description of one: a signed zero, a signed infinity,
    NaN, or [(-1)^s * m * 2^e]. *)
Definition Number : Type := spec_float.

(** [10^21 <= m * 2^e], exactly. *)
Definition atLeast1e21 (m : positive) (e : Z) : bool :=
  if (0 <=? e)%Z then (10 ^ 21 <=? Z.pos m * 2 ^ e)%Z
  else (10 ^ 21 * 2 ^ (- e) <=? Z.pos m)%Z.

(** The integer [n] for which [n / 10^f - m * 2^e] is as close to zero as
    possible, the larger one when there are two. *)
Definition nearestScaled (m : positive) (e : Z) (f : nat) : Z :=
  if (0 <=? e)%Z then (Z.pos m * 2 ^ e * 10 ^ Z.of_nat f)%Z
  else ((2 * Z.pos m * 10 ^ Z.of_nat f + 2 ^ (- e)) / 2 ^ (- e + 1))%Z.

(** Steps 11.b and 11.c of [Number.prototype.toFixed]: the digits of [n]
    with a decimal point before the last [f] of them. *)
Definition fixedDigits (n : Z) (f : nat) : string :=
  let m := digits (Z.to_N n) in
  match f with
  | O => m
  | _ =>
      let k := String.length m in
      let m := if (k <=? f)%nat then zeros (f + 1 - k) ++ m else m in
      let k := if (k <=? f)%nat then (f + 1)%nat else k in
      take (k - f) m ++ "." ++ drop (k - f) m
  end.

Section ToFixed.
(** [Number::toString], the shortest decimal form that reads back as the
    same binary64 value, is the host's. *)
Variable numberToString : Number -> string.

(** [x.toFixed(f)] for [0 <= f <= 100]. *)
Definition toFixed (x : Number) (f : nat) : string :=
  match x with
  | S754_nan | S754_infinity _ => numberToString x
  | S754_zero _ => fixedDigits 0 f
  | S754_finite s m e =>
      (if s then "-" else "") ++
      (if atLeast1e21 m e then numberToString (S754_finite false m e)
       else fixedDigits (nearestScaled m e f) f)
  end.
End ToFixed.

(** The numbers [toFixed] prints in fixed notation: finite, of magnitude
    below [10^21]. *)
Definition fixedNotation (x : Number) : bool :=
  match x with
  | S754_zero _ => true
  | S754_finite _ m e => negb (atLeast1e21 m e)
  | S754_nan | S754_infinity _ => false
  end.

(** [|x| <= bound], exactly, for an integer bound. *)
Definition absAtMost (bound : Z) (x : Number) : bool :=
  match x with
  | S754_zero _ => true
  | S754_finite _ m e =>
      if (0 <=? e)%Z then (Z.pos m * 2 ^ e <=? bound)%Z
      else (Z.pos m <=? bound * 2 ^ (- e))%Z
  | S754_nan | S754_infinity _ => false
  end.

(** Every character is a decimal digit. *)
Fixpoint allDigits (s : string) : bool :=
  match s with
  | EmptyString => true
  | String c s' =>
      let n := nat_of_ascii c in
      (48 <=? n)%nat && (n <=? 57)%nat && allDigits s'
  end.

(** A decimal numeral with exactly [f] digits after the point: an optional
    minus sign, at least one digit, the point, [f] digits. *)
Definition FixedPoint (f : nat) (s : string) : Prop :=
  exists sign whole fraction,
    s = sign ++ whole ++ "." ++ fraction
    /\ (sign = "" \/ sign = "-")
    /\ whole <> ""
    /\ allDigits whole = true
    /\ allDigits fraction = true
    /\ String.length fraction = f.

(** Reading a string of decimal digits back as a number, leading zeros
    allowed; [None] when a character is not a digit. *)
Definition readDigits (s : string) : option N :=
  option_map N.of_uint (NilEmpty.uint_of_string s).

(** Does the character occur in the string? *)
Fixpoint contains (c : ascii) (s : string) : bool :=
  match s with
  | EmptyString => false
  | String d s' => Ascii.eqb d c || contains c s'
  end.

(** [n] is the integer nearest to [m * 2^e * 10^f], the upper one of two
    equally near, said with integers only. *)
Definition NearestTo (m : positive) (e : Z) (f : nat) (n : Z) : Prop :=
  (0 <= n)%Z
  /\ ((0 <= e)%Z -> n = (Z.pos m * 2 ^ e * 10 ^ Z.of_nat f)%Z)
  /\ ((e < 0)%Z ->
      (2 * n * 2 ^ (- e) <= 2 * Z.pos m * 10 ^ Z.of_nat f + 2 ^ (- e)
       < 2 * (n + 1) * 2 ^ (- e))%Z).

(** The string shows the number to [f] decimals: a zero as ["0."] and [f]
    zeros; a finite number as a minus sign when it is negative, digits, the
    point and [f] digits, where the digits read without the point are the
    integer nearest to the number's magnitude times [10^f].  NaN and the
    infinities are not shown this way. *)
Definition Shows (f : nat) (x : Number) (s : string) : Prop :=
  match x with
  | S754_zero _ => s = "0." ++ zeros f
  | S754_finite negative m e =>
      exists whole fraction n,
        s = (if negative then "-" else "") ++ whole ++ "." ++ fraction
        /\ String.length fraction = f
        /\ readDigits (whole ++ fraction) = Some (Z.to_N n)
        /\ NearestTo m e f n
  | S754_nan | S754_infinity _ => False
  end.

End JS.

(** ** The records of [@/lib/types] and of the platform *)

Module Types.

(** Modelled from the spec: [@/lib/types] is not part of the sources at
    hand.  The fields are the ones the components read; [id] is an opaque
    identifier and [created_at] a timestamp string (it is handed to
    [new Date(...)]). *)
Record WasteReport : Type := {
  id : string;
  latitude : JS.Number;
  longitude : JS.Number;
  photo_url : string;
  created_at : string
}.

(** Modelled from the spec: the transient create request of
    [@/lib/types]. *)
Record CreateWasteReport : Type := {
  new_latitude : JS.Number;
  new_longitude : JS.Number;
  new_photo_url : string
}.

(** Modelled from the spec: [@/utils/geolocation] is not part of the sources
    at hand.  [getCurrentLocation()] resolves to a coordinate pair, read by
    [handleUpload] as [location.latitude] and [location.longitude], or
    rejects. *)
Record Location : Type := {
  loc_latitude : JS.Number;
  loc_longitude : JS.Number
}.

(** A DOM [File], as far as the upload flow reads it. *)
Record File : Type := {
  name : string;
  type : string;
  size : N
}.

End Types.

(** ** Effects: state, exceptions and the log of outside calls *)

Module Eff.

Inductive Completion (A : Type) : Type :=
| Normal (a : A)
| Abrupt (t : JS.Thrown).
Arguments Normal {A} a.
Arguments Abrupt {A} t.

Section Monad.
Context {St Ev : Type}.

(** A computation reads and writes the component state [St], appends to
    the log of events [Ev], and completes normally or throws. *)
Definition M (A : Type) : Type :=
  St -> list Ev -> Completion A * St * list Ev.

Definition ret {A} (a : A) : M A := fun s l => (Normal a, s, l).

Definition bind {A B} (c : M A) (k : A -> M B) : M B :=
  fun s l =>
    match c s l with
    | (Normal a, s1, l1) => k a s1 l1
    | (Abrupt t, s1, l1) => (Abrupt t, s1, l1)
    end.

Definition throw {A} (t : JS.Thrown) : M A := fun s l => (Abrupt t, s, l).

Definition gets {A} (f : St -> A) : M A := fun s l => (Normal (f s), s, l).

Definition modify (f : St -> St) : M unit := fun s l => (Normal tt, f s, l).

Definition emit (e : Ev) : M unit := fun s l => (Normal tt, s, (l ++ [e])%list).

(** [await p]: the value the promise resolves to, or its rejection
    thrown. *)
Definition await {A} (p : JS.Outcome A) : M A :=
  match p with
  | JS.Resolved a => ret a
  | JS.Rejected t => throw t
  end.

(** [try { body } catch (e) { handler e } finally { fin }] *)
Definition tryCatchFinally {A} (body : M A) (handler : JS.Thrown -> M A)
           (fin : M unit) : M A :=
  fun s l =>
    let '(c1, s1, l1) := body s l in
    let '(c2, s2, l2) :=
      match c1 with
      | Normal a => (Normal a, s1, l1)
      | Abrupt t => handler t s1 l1
      end in
    match fin s2 l2 with
    | (Normal _, s3, l3) => (c2, s3, l3)
    | (Abrupt t, s3, l3) => (Abrupt t, s3, l3)
    end.

(** The state a handler leaves, and what it logged, started on an empty
    log. *)
Definition exec {A} (c : M A) (s : St) : St := snd (fst (c s [])).
Definition logOf {A} (c : M A) (s : St) : list Ev := snd (c s []).
End Monad.

Arguments M : clear implicits.

End Eff.

Declare Scope eff_scope.
Delimit Scope eff_scope with eff.
Notation "x <- c ;; k" := (Eff.bind c (fun x => k))
  (at level 61, c at next level, right associativity) : eff_scope.
Notation "c ;; k" := (Eff.bind c (fun _ => k))
  (at level 61, right associativity) : eff_scope.

(** ** ReportModal.tsx *)

Module ReportModal.
Import Types.

(** [window.open(url, target)] *)
Record WindowOpen : Type := {
  url : string;
  target : string
}.

(** What the modal shows of a report: the photo, the three information rows
    and the call its Open-in-Maps button makes. *)
Record View : Type := {
  photoSrc : string;
  reportedOn : string;
  location : string;
  reportId : string;
  onOpenInMaps : WindowOpen
}.

Section Host.
(** [Number::toString] and [new Date(ts).toLocaleString('en-US', ...)] are
    the host's. *)
Variable numberToString : JS.Number -> string.
Variable formatTimestamp : string -> string.

Definition formatCoordinates (lat lng : JS.Number) : string :=
  JS.toFixed numberToString lat 6 ++ ", " ++ JS.toFixed numberToString lng 6.

Definition openInMaps (report : WasteReport) : WindowOpen :=
  {| url := "https://www.google.com/maps?q="
            ++ numberToString (latitude report) ++ ","
            ++ numberToString (longitude report);
     target := "_blank" |}.

Definition view (report : WasteReport) : View :=
  {| photoSrc := photo_url report;
     reportedOn := formatTimestamp (created_at report);
     location := formatCoordinates (latitude report) (longitude report);
     reportId := id report;
     onOpenInMaps := openInMaps report |}.

(** The component: [None] is the [null] it returns when it renders
    nothing. *)
Definition ReportModal (report : option WasteReport) (isOpen : bool)
  : option View :=
  match negb isOpen, report with
  | false, Some r => Some (view r)
  | _, _ => None
  end.
End Host.

End ReportModal.

(** ** MapComponent.tsx *)

Module MapComponent.
Import Types.

(** deck.gl's [PickingInfo], as far as the click handler reads it. *)
Record PickingInfo : Type := {
  object : option WasteReport
}.

(** The accessors of the heat-map layer. *)
Definition getPosition (d : WasteReport) : JS.Number * JS.Number :=
  (longitude d, latitude d).

Definition getWeight (_ : WasteReport) : Z := 1%Z.

(** The layer's [onClick]: the optional [onReportClick] prop is a handler on
    the parent's state [S]; the boolean tells deck.gl whether the click was
    handled. *)
Definition onClick {S : Type} (onReportClick : option (WasteReport -> S -> S))
           (info : PickingInfo) (s : S) : bool * S :=
  match object info, onReportClick with
  | Some r, Some handler => (true, handler r s)
  | _, _ => (false, s)
  end.

End MapComponent.

(** ** UploadComponent (file selection and the upload flow) *)

Module UploadComponent.
Import Types.
Local Open Scope eff_scope.

(** The four [useState] cells and the file input behind [fileInputRef]
    ([None] while the ref has no current element). *)
Record State : Type := {
  isUploading : bool;
  uploadStatus : string;
  selectedFile : option File;
  previewUrl : string;
  fileInputValue : option string
}.

Definition initialState : State :=
  {| isUploading := false; uploadStatus := ""; selectedFile := None;
     previewUrl := ""; fileInputValue := Some "" |}.

(** The callback handed to [setTimeout]. *)
Inductive TimerCallback : Type :=
| ClearUploadStatus.

(** Everything the component does that is visible outside its state, in the
    order it happens; a status write is logged as well, so that the order of
    the phases can be read off. *)
Inductive Event : Type :=
| StatusShown (status : string)
| CreateObjectURL (file : File)
| GetCurrentLocation
| StorageUpload (bucket path : string) (file : File)
| GetPublicUrl (bucket path : string)
| DbInsert (table : string) (rows : list CreateWasteReport)
| OnUploadSuccess
| SetTimeout (callback : TimerCallback) (ms : Z)
| ConsoleError (error : JS.Thrown).

(** What the outside answers during one run of a handler. *)
Record Env : Type := {
  createObjectURL : File -> string;
  dateNow : N;
  mathRandom36 : string;
  currentLocation : JS.Outcome Location;
  uploadResult : JS.Outcome (option string);
  publicUrl : string -> string -> string;
  insertResult : JS.Outcome (option string)
}.

Definition M : Type -> Type := Eff.M State Event.

Definition setIsUploading (b : bool) : M unit :=
  Eff.modify (fun s =>
    {| isUploading := b; uploadStatus := uploadStatus s;
       selectedFile := selectedFile s; previewUrl := previewUrl s;
       fileInputValue := fileInputValue s |}).

Definition setUploadStatus (msg : string) : M unit :=
  Eff.modify (fun s =>
    {| isUploading := isUploading s; uploadStatus := msg;
       selectedFile := selectedFile s; previewUrl := previewUrl s;
       fileInputValue := fileInputValue s |}) ;;
  Eff.emit (StatusShown msg).

Definition setSelectedFile (f : option File) : M unit :=
  Eff.modify (fun s =>
    {| isUploading := isUploading s; uploadStatus := uploadStatus s;
       selectedFile := f; previewUrl := previewUrl s;
       fileInputValue := fileInputValue s |}).

Definition setPreviewUrl (u : string) : M unit :=
  Eff.modify (fun s =>
    {| isUploading := isUploading s; uploadStatus := uploadStatus s;
       selectedFile := selectedFile s; previewUrl := u;
       fileInputValue := fileInputValue s |}).

(** [if (fileInputRef.current) fileInputRef.current.value = ''] *)
Definition resetFileInput : M unit :=
  Eff.modify (fun s =>
    {| isUploading := isUploading s; uploadStatus := uploadStatus s;
       selectedFile := selectedFile s; previewUrl := previewUrl s;
       fileInputValue := match fileInputValue s with
                         | Some _ => Some ""
                         | None => None
                         end |}).

Definition maxFileSize : N := 5 * 1024 * 1024.

(** [handleFileSelect]: [file] is [event.target.files?.[0]]. *)
Definition handleFileSelect (env : Env) (file : option File) : M unit :=
  match file with
  | Some file =>
      if negb (JS.startsWith (type file) "image/") then
        setUploadStatus "Please select an image file"
      else if (maxFileSize <? size file)%N then
        setUploadStatus "File size must be less than 5MB"
      else
        setSelectedFile (Some file) ;;
        Eff.emit (CreateObjectURL file) ;;
        setPreviewUrl (createObjectURL env file) ;;
        setUploadStatus ""
  | None => Eff.ret tt
  end.

(** The storage key built in step 2. *)
Definition filePathOf (env : Env) (selected : File) : string :=
  let fileExt := JS.pop (JS.split "." (name selected)) in
  let fileName :=
    JS.digits (dateNow env) ++ "-" ++ JS.substringFrom 7 (mathRandom36 env)
    ++ "." ++ JS.interpolate fileExt in
  "photos/" ++ fileName.

(** [handleUpload] *)
Definition handleUpload (env : Env) : M unit :=
  selected <- Eff.gets selectedFile ;;
  match selected with
  | None => setUploadStatus "Please select a photo first"
  | Some selected =>
      setIsUploading true ;;
      setUploadStatus "Getting your location..." ;;
      Eff.tryCatchFinally
        ( Eff.emit GetCurrentLocation ;;
          location <- Eff.await (currentLocation env) ;;
          setUploadStatus "Uploading photo..." ;;
          let filePath := filePathOf env selected in
          Eff.emit (StorageUpload "waste-photos" filePath selected) ;;
          uploadError <- Eff.await (uploadResult env) ;;
          match uploadError with
          | Some message =>
              Eff.throw (JS.ErrorObj ("Upload failed: " ++ message))
          | None =>
              Eff.emit (GetPublicUrl "waste-photos" filePath) ;;
              let urlData := publicUrl env "waste-photos" filePath in
              setUploadStatus "Saving report..." ;;
              let reportData :=
                {| new_latitude := loc_latitude location;
                   new_longitude := loc_longitude location;
                   new_photo_url := urlData |} in
              Eff.emit (DbInsert "reports" [reportData]) ;;
              dbError <- Eff.await (insertResult env) ;;
              match dbError with
              | Some message =>
                  Eff.throw (JS.ErrorObj ("Database error: " ++ message))
              | None =>
                  setUploadStatus "Report submitted successfully!" ;;
                  setSelectedFile None ;;
                  setPreviewUrl "" ;;
                  resetFileInput ;;
                  Eff.emit OnUploadSuccess ;;
                  Eff.emit (SetTimeout ClearUploadStatus 3000)
              end
          end )
        (fun error =>
           Eff.emit (ConsoleError error) ;;
           setUploadStatus (match error with
                            | JS.ErrorObj message => message
                            | JS.OtherThrown => "Upload failed"
                            end))
        (setIsUploading false)
  end.

(** What a timer callback does when it fires. *)
Definition fire (cb : TimerCallback) : M unit :=
  match cb with
  | ClearUploadStatus => setUploadStatus ""
  end.

(** [clearSelection] *)
Definition clearSelection : M unit :=
  setSelectedFile None ;;
  setPreviewUrl "" ;;
  setUploadStatus "" ;;
  resetFileInput.


(** Does the event reach the location provider or the backend? *)
Definition isOutsideCall (e : Event) : bool :=
  match e with
  | GetCurrentLocation | StorageUpload _ _ _ | GetPublicUrl _ _
  | DbInsert _ _ => true
  | _ => false
  end.

Definition isDbInsert (e : Event) : bool :=
  match e with
  | DbInsert _ _ => true
  | _ => false
  end.

(** The files [handleFileSelect] lets through. *)
Definition acceptable (f : File) : bool :=
  JS.startsWith (type f) "image/" && negb (maxFileSize <? size f)%N.

(** How far a run of [handleUpload] has come.  The run is cut at its three
    [await]s; while it waits, the component renders and a timer may fire.
    The pending run keeps what it closed over: the answers of the outside,
    the file selected when it began, and the location once it has it. *)
Inductive Pending : Type :=
| NoRun
| AwaitingLocation (env : Env) (selected : File)
| AwaitingUpload (env : Env) (selected : File) (location : Location)
| AwaitingInsert (env : Env) (selected : File) (location : Location).

(** The [catch] block of [handleUpload]. *)
Definition onUploadError (error : JS.Thrown) : M unit :=
  Eff.emit (ConsoleError error) ;;
  setUploadStatus (match error with
                   | JS.ErrorObj message => message
                   | JS.OtherThrown => "Upload failed"
                   end).

(** A stretch of the [try] block that ends at an [await] or at the end of
    the block: when it throws, the [catch] block runs; when the run is over,
    by a throw or by reaching the end, the [finally] block runs. *)
Definition stretch (body : M Pending) : M Pending :=
  next <- Eff.tryCatchFinally body
            (fun error => onUploadError error ;; Eff.ret NoRun)
            (Eff.ret tt) ;;
  match next with
  | NoRun => setIsUploading false ;; Eff.ret NoRun
  | _ => Eff.ret next
  end.

(** [handleUpload] from its call to its first [await]. *)
Definition handleUploadStart (env : Env) : M Pending :=
  selected <- Eff.gets selectedFile ;;
  match selected with
  | None =>
      setUploadStatus "Please select a photo first" ;;
      Eff.ret NoRun
  | Some selected =>
      setIsUploading true ;;
      setUploadStatus "Getting your location..." ;;
      Eff.emit GetCurrentLocation ;;
      Eff.ret (AwaitingLocation env selected)
  end.

(** [handleUpload] from the settling of the promise it waits for to its next
    [await], or to its end. *)
Definition handleUploadResume (pending : Pending) : M Pending :=
  match pending with
  | NoRun => Eff.ret NoRun
  | AwaitingLocation env selected =>
      stretch
        ( location <- Eff.await (currentLocation env) ;;
          setUploadStatus "Uploading photo..." ;;
          Eff.emit (StorageUpload "waste-photos" (filePathOf env selected)
                      selected) ;;
          Eff.ret (AwaitingUpload env selected location) )
  | AwaitingUpload env selected location =>
      stretch
        ( uploadError <- Eff.await (uploadResult env) ;;
          match uploadError with
          | Some message =>
              Eff.throw (JS.ErrorObj ("Upload failed: " ++ message))
          | None =>
              let filePath := filePathOf env selected in
              Eff.emit (GetPublicUrl "waste-photos" filePath) ;;
              let urlData := publicUrl env "waste-photos" filePath in
              setUploadStatus "Saving report..." ;;
              let reportData :=
                {| new_latitude := loc_latitude location;
                   new_longitude := loc_longitude location;
                   new_photo_url := urlData |} in
              Eff.emit (DbInsert "reports" [reportData]) ;;
              Eff.ret (AwaitingInsert env selected location)
          end )
  | AwaitingInsert env selected location =>
      stretch
        ( dbError <- Eff.await (insertResult env) ;;
          match dbError with
          | Some message =>
              Eff.throw (JS.ErrorObj ("Database error: " ++ message))
          | None =>
              setUploadStatus "Report submitted successfully!" ;;
              setSelectedFile None ;;
              setPreviewUrl "" ;;
              resetFileInput ;;
              Eff.emit OnUploadSuccess ;;
              Eff.emit (SetTimeout ClearUploadStatus 3000) ;;
              Eff.ret NoRun
          end )
  end.

(** The run a stretch leaves pending. *)
Definition pendingAfter (c : M Pending) (s : State) : Pending :=
  match fst (fst (c s [])) with
  | Eff.Normal next => next
  | Eff.Abrupt _ => NoRun
  end.

(** The whole run, when nothing happens between its stretches. *)
Definition handleUploadInStretches (env : Env) : M unit :=
  p0 <- handleUploadStart env ;;
  p1 <- handleUploadResume p0 ;;
  p2 <- handleUploadResume p1 ;;
  _ <- handleUploadResume p2 ;;
  Eff.ret tt.

(** The states the component can be in, with the run that is pending.  It
    starts in [initialState] with no run.  While no run is pending the file
    input, the clear button and the submit button can be used; while one is
    pending they are disabled, and what can happen is that the awaited
    promise settles.  A timer may fire, and the file input may lose its
    element, at any time. *)
Inductive ReachableRun : State -> Pending -> Prop :=
| RunInitial : ReachableRun initialState NoRun
| RunFileSelect env file s :
    ReachableRun s NoRun ->
    ReachableRun (Eff.exec (handleFileSelect env file) s) NoRun
| RunClear s :
    ReachableRun s NoRun ->
    ReachableRun (Eff.exec clearSelection s) NoRun
| RunStart env s :
    ReachableRun s NoRun ->
    ReachableRun (Eff.exec (handleUploadStart env) s)
                 (pendingAfter (handleUploadStart env) s)
| RunResume s pending :
    ReachableRun s pending ->
    ReachableRun (Eff.exec (handleUploadResume pending) s)
                 (pendingAfter (handleUploadResume pending) s)
| RunTimer cb s pending :
    ReachableRun s pending ->
    ReachableRun (Eff.exec (fire cb) s) pending
| RunUnmountedInput s pending :
    ReachableRun s pending ->
    ReachableRun {| isUploading := isUploading s;
                    uploadStatus := uploadStatus s;
                    selectedFile := selectedFile s;
                    previewUrl := previewUrl s;
                    fileInputValue := None |} pending.

(** The states the component can be in, between runs of [handleUpload] and
    in the middle of one. *)
Definition Reachable (s : State) : Prop :=
  exists pending, ReachableRun s pending.

(** How the status line is coloured. *)
Inductive Tone : Type := Green | Red | Blue.

Definition statusTone (status : string) : Tone :=
  if JS.includes status "success" then Green
  else if JS.includes status "error" || JS.includes status "failed" then Red
  else Blue.

(** What the component draws, as far as it depends on the state: the label
    of the file input, the preview image, the two buttons and the status
    line. *)
Record View : Type := {
  inputDisabled : bool;
  fileLabel : option string;
  preview : option string;
  submitDisabled : bool;
  submitSpinner : bool;
  clearButton : option bool;
  statusLine : option (Tone * string)
}.

Definition render (s : State) : View :=
  {| inputDisabled := isUploading s;
     fileLabel := match selectedFile s with
                  | Some f => Some (name f)
                  | None => None
                  end;
     preview := if (previewUrl s =? "")%string then None
                else Some (previewUrl s);
     submitDisabled := match selectedFile s with
                       | Some _ => false
                       | None => true
                       end || isUploading s;
     submitSpinner := isUploading s;
     clearButton := match selectedFile s with
                    | Some _ => Some (isUploading s)
                    | None => None
                    end;
     statusLine := if (uploadStatus s =? "")%string then None
                   else Some (statusTone (uploadStatus s), uploadStatus s) |}.

(** The calls of a run that leave the browser, in order. *)
Definition outsideCalls (log : list Event) : list Event :=
  filter isOutsideCall log.

Definition isOnUploadSuccess (e : Event) : bool :=
  match e with
  | OnUploadSuccess => true
  | _ => false
  end.

Definition isSetTimeout (e : Event) : bool :=
  match e with
  | SetTimeout _ _ => true
  | _ => false
  end.

(** The files handed to the bucket during a run. *)
Fixpoint uploadedFiles (log : list Event) : list File :=
  match log with
  | [] => []
  | StorageUpload _ _ f :: rest => f :: uploadedFiles rest
  | _ :: rest => uploadedFiles rest
  end.

(** Every step of the flow succeeds. *)
Definition allSucceed (env : Env) : bool :=
  match currentLocation env, uploadResult env, insertResult env with
  | JS.Resolved _, JS.Resolved None, JS.Resolved None => true
  | _, _, _ => false
  end.

End UploadComponent.

(** ** Home (the page: reports collection, bulk fetch, INSERT feed) *)

Module Home.
Import Types.
Local Open Scope eff_scope.

Record State : Type := {
  reports : list WasteReport;
  selectedReport : option WasteReport;
  isModalOpen : bool;
  isLoading : bool;
  error : string;
  isUploadModalOpen : bool
}.

Definition initialState : State :=
  {| reports := []; selectedReport := None; isModalOpen := false;
     isLoading := true; error := ""; isUploadModalOpen := false |}.

(** The query [fetchReports] builds:
    [from('reports').select('*').order('created_at', { ascending: false })]. *)
Record Query : Type := {
  table : string;
  columns : string;
  orderColumn : string;
  ascending : bool
}.

(** The [{ data, error }] the query resolves to. *)
Record QueryResponse : Type := {
  data : option (list WasteReport);
  queryError : option JS.Thrown
}.

Inductive Event : Type :=
| Select (q : Query)
| ConsoleError (label : string) (err : JS.Thrown)
| ConsoleLog (label : string) (r : WasteReport).

Definition M : Type -> Type := Eff.M State Event.

Definition setReports (f : list WasteReport -> list WasteReport) : M unit :=
  Eff.modify (fun s =>
    {| reports := f (reports s); selectedReport := selectedReport s;
       isModalOpen := isModalOpen s; isLoading := isLoading s;
       error := error s; isUploadModalOpen := isUploadModalOpen s |}).

Definition setSelectedReport (r : option WasteReport) : M unit :=
  Eff.modify (fun s =>
    {| reports := reports s; selectedReport := r;
       isModalOpen := isModalOpen s; isLoading := isLoading s;
       error := error s; isUploadModalOpen := isUploadModalOpen s |}).

Definition setIsModalOpen (b : bool) : M unit :=
  Eff.modify (fun s =>
    {| reports := reports s; selectedReport := selectedReport s;
       isModalOpen := b; isLoading := isLoading s;
       error := error s; isUploadModalOpen := isUploadModalOpen s |}).

Definition setIsLoading (b : bool) : M unit :=
  Eff.modify (fun s =>
    {| reports := reports s; selectedReport := selectedReport s;
       isModalOpen := isModalOpen s; isLoading := b;
       error := error s; isUploadModalOpen := isUploadModalOpen s |}).

Definition setError (msg : string) : M unit :=
  Eff.modify (fun s =>
    {| reports := reports s; selectedReport := selectedReport s;
       isModalOpen := isModalOpen s; isLoading := isLoading s;
       error := msg; isUploadModalOpen := isUploadModalOpen s |}).

Definition setIsUploadModalOpen (b : bool) : M unit :=
  Eff.modify (fun s =>
    {| reports := reports s; selectedReport := selectedReport s;
       isModalOpen := isModalOpen s; isLoading := isLoading s;
       error := error s; isUploadModalOpen := b |}).

Definition reportsQuery : Query :=
  {| table := "reports"; columns := "*"; orderColumn := "created_at";
     ascending := false |}.

(** [fetchReports] is cut at its one [await]: [fetchReportsStart] runs when
    it is called, [fetchReportsResume] when the query settles; other
    handlers may run in between.  Nothing before the [await] can throw, so
    the [try] is kept with the second half. *)
Definition fetchReportsStart : M unit :=
  setError "" ;;
  Eff.emit (Select reportsQuery).

Definition fetchReportsResume (settled : JS.Outcome QueryResponse) : M unit :=
  Eff.tryCatchFinally
    ( response <- Eff.await settled ;;
      match queryError response with
      | Some err => Eff.throw err
      | None =>
          setReports (fun _ => match data response with
                               | Some rows => rows
                               | None => []
                               end)
      end )
    (fun err =>
       Eff.emit (ConsoleError "Error fetching reports:" err) ;;
       setError "Failed to load reports")
    (setIsLoading false).

(** The whole of [fetchReports], when nothing runs in between. *)
Definition fetchReports (settled : JS.Outcome QueryResponse) : M unit :=
  fetchReportsStart ;;
  fetchReportsResume settled.

(** The [postgres_changes] INSERT handler; [payloadNew] is [payload.new]. *)
Definition onInsert (payloadNew : WasteReport) : M unit :=
  Eff.emit (ConsoleLog "New report received:" payloadNew) ;;
  setReports (fun currentReports => payloadNew :: currentReports).

(** [handleUploadSuccess]: the fetch it starts settles later. *)
Definition handleUploadSuccess : M unit :=
  fetchReportsStart ;;
  setIsUploadModalOpen false.

Definition handleReportClick (report : WasteReport) : M unit :=
  setSelectedReport (Some report) ;;
  setIsModalOpen true.

Definition closeModal : M unit :=
  setIsModalOpen false ;;
  setSelectedReport None.

(** What can happen to the mounted page. *)
Inductive Action : Type :=
| FetchStarted
| FetchSettled (settled : JS.Outcome QueryResponse)
| Inserted (payloadNew : WasteReport)
| UploadSucceeded
| MapClicked (info : MapComponent.PickingInfo)
| ModalClosed
| UploadModalOpened
| UploadModalClosed.

(** The map's click, wired as the page wires it:
    [onReportClick={handleReportClick}]. *)
Definition mapClick (info : MapComponent.PickingInfo) (s : State)
  : bool * State :=
  MapComponent.onClick (Some (fun r => Eff.exec (handleReportClick r))) info s.

Definition step (s : State) (a : Action) : State :=
  match a with
  | FetchStarted => Eff.exec fetchReportsStart s
  | FetchSettled settled => Eff.exec (fetchReportsResume settled) s
  | Inserted r => Eff.exec (onInsert r) s
  | UploadSucceeded => Eff.exec handleUploadSuccess s
  | MapClicked info => snd (mapClick info s)
  | ModalClosed => Eff.exec closeModal s
  | UploadModalOpened => Eff.exec (setIsUploadModalOpen true) s
  | UploadModalClosed => Eff.exec (setIsUploadModalOpen false) s
  end.

Definition run (s : State) (trace : list Action) : State :=
  fold_left step trace s.

(** The state right after mount: the effect has called [fetchReports]. *)
Definition mounted : State := step initialState FetchStarted.

(** A successful bulk result carrying the rows [F]. *)
Definition fetched (F : list WasteReport) : Action :=
  FetchSettled (JS.Resolved {| data := Some F; queryError := None |}).

(** What the page renders: one of its three [return]s. *)
Inductive Screen : Type :=
| LoadingScreen
| ErrorScreen (message : string)
| MainScreen (mapReports : list WasteReport)
             (uploadModal : bool)
             (modal : option ReportModal.View)
             (reportCount : nat)
             (welcomeOverlay : bool).

Section Host.
Variable numberToString : JS.Number -> string.
Variable formatTimestamp : string -> string.

Definition render (s : State) : Screen :=
  if isLoading s then LoadingScreen
  else if negb (error s =? "")%string then ErrorScreen (error s)
  else MainScreen (reports s)
                  (isUploadModalOpen s)
                  (ReportModal.ReportModal numberToString formatTimestamp
                     (selectedReport s) (isModalOpen s))
                  (List.length (reports s))
                  (Nat.eqb (List.length (reports s)) 0).
End Host.

(** The ways two event sequences can be merged, each keeping its order. *)
Inductive Interleaving {A : Type} : list A -> list A -> list A -> Prop :=
| InterleavingNil : Interleaving [] [] []
| InterleavingLeft x xs ys zs :
    Interleaving xs ys zs -> Interleaving (x :: xs) ys (x :: zs)
| InterleavingRight y xs ys zs :
    Interleaving xs ys zs -> Interleaving xs (y :: ys) (y :: zs).

Definition ids (l : list WasteReport) : list string := map id l.

(** How often an id occurs in a collection. *)
Definition occurrences (i : string) (l : list WasteReport) : nat :=
  count_occ string_dec (ids l) i.

(** [created_at] descending, for a reading [timeOf] of the timestamp
    strings. *)
Definition mostRecentFirst (timeOf : string -> Z) (l : list WasteReport)
  : Prop :=
  Sorted (fun a b => (timeOf (created_at b) <= timeOf (created_at a))%Z) l.

(** Has a fetch settled somewhere in the trace? *)
Definition isFetchSettled (a : Action) : bool :=
  match a with
  | FetchSettled _ => true
  | _ => false
  end.

(** The actions that come from the backend's data: a settling fetch and a
    streamed insert. *)
Definition isDataAction (a : Action) : bool :=
  match a with
  | FetchSettled _ | Inserted _ => true
  | _ => false
  end.

(** The rows a settling fetch stores, if it stores any. *)
Definition fetchedRows (a : Action) : option (list WasteReport) :=
  match a with
  | FetchSettled (JS.Resolved {| data := rows; queryError := None |}) =>
      Some (match rows with Some l => l | None => [] end)
  | _ => None
  end.

Definition storesNoRows (a : Action) : bool :=
  match fetchedRows a with
  | Some _ => false
  | None => true
  end.

(** The reports streamed in during a trace, in delivery order. *)
Fixpoint insertsOf (trace : list Action) : list WasteReport :=
  match trace with
  | [] => []
  | Inserted r :: rest => r :: insertsOf rest
  | _ :: rest => insertsOf rest
  end.

End Home.

(** ** Sample data *)

Module Samples.
Import Types.

(** 16.29044 and 80.45559, the coordinates of the initial map view, as
    binary64 values. *)
Definition lat0 : JS.Number := S754_finite false 4585351219606339 (-48).
Definition lng0 : JS.Number := S754_finite false 5661558830373022 (-46).

Definition r1 : WasteReport :=
  {| id := "r1"; latitude := lat0; longitude := lng0;
     photo_url := "https://cdn.example/photos/1.jpg";
     created_at := "2024-05-01T10:00:00Z" |}.

Definition r2 : WasteReport :=
  {| id := "r2"; latitude := lat0; longitude := lng0;
     photo_url := "https://cdn.example/photos/2.jpg";
     created_at := "2024-05-02T10:00:00Z" |}.

Definition photo : File :=
  {| name := "beach.photo.jpg"; type := "image/jpeg"; size := 204800 |}.

Definition notes : File :=
  {| name := "notes.txt"; type := "text/plain"; size := 120 |}.

(** 6 MiB *)
Definition hugePhoto : File :=
  {| name := "huge.png"; type := "image/png"; size := 6 * 1024 * 1024 |}.

Definition here : Location :=
  {| loc_latitude := lat0; loc_longitude := lng0 |}.

(** An outside where every step of the upload succeeds. *)
Definition allGood : UploadComponent.Env :=
  {| UploadComponent.createObjectURL := fun f => "blob:" ++ name f;
     UploadComponent.dateNow := 1714557600000;
     UploadComponent.mathRandom36 := "0.k2j5x9q1";
     UploadComponent.currentLocation := JS.Resolved here;
     UploadComponent.uploadResult := JS.Resolved None;
     UploadComponent.publicUrl :=
       fun bucket path => "https://cdn.example/" ++ bucket ++ "/" ++ path;
     UploadComponent.insertResult := JS.Resolved None |}.

(** The same outside, but the bucket refuses the object. *)
Definition bucketRefuses : UploadComponent.Env :=
  {| UploadComponent.createObjectURL := fun f => "blob:" ++ name f;
     UploadComponent.dateNow := 1714557600000;
     UploadComponent.mathRandom36 := "0.k2j5x9q1";
     UploadComponent.currentLocation := JS.Resolved here;
     UploadComponent.uploadResult := JS.Resolved (Some "Bucket not found");
     UploadComponent.publicUrl :=
       fun bucket path => "https://cdn.example/" ++ bucket ++ "/" ++ path;
     UploadComponent.insertResult := JS.Resolved None |}.

(** [Number::toString] on the two sample coordinates. *)
Definition showNumber (x : JS.Number) : string :=
  match x with
  | S754_finite false 4585351219606339 (-48) => "16.29044"
  | S754_finite false 5661558830373022 (-46) => "80.45559"
  | _ => "NaN"
  end.

(** Seconds since the epoch of the two sample timestamps. *)
Definition timeOf (ts : string) : Z :=
  if (ts =? "2024-05-01T10:00:00Z")%string then 1714557600
  else if (ts =? "2024-05-02T10:00:00Z")%string then 1714644000
  else 0.

End Samples.

(** * Properties *)

(** ** Detail modal *)

(** C10: the modal renders nothing whenever its report is null, also when
    [isOpen] is true. *)
Theorem modal_null_report_renders_nothing :
  forall numberToString formatTimestamp (isOpen : bool),
    ReportModal.ReportModal numberToString formatTimestamp None isOpen = None.
Proof.
  intros nts ft isOpen. unfold ReportModal.ReportModal.
  destruct isOpen; reflexivity.
Qed.

(** The page shows no modal while nothing is selected, whatever
    [isModalOpen] says. *)
Lemma page_without_selection_shows_no_modal :
  forall numberToString formatTimestamp s,
    Home.selectedReport s = None ->
    match Home.render numberToString formatTimestamp s with
    | Home.MainScreen _ _ modal _ _ => modal = None
    | _ => True
    end.
Proof.
  intros nts ft s Hsel. unfold Home.render.
  destruct (Home.isLoading s); [exact I|].
  destruct (negb (Home.error s =? "")%string); [exact I|].
  rewrite Hsel. destruct (Home.isModalOpen s); reflexivity.
Qed.

(** ** Map overlay *)


(** The handler runs at most once per click, seen through a handler that
    counts its calls. *)
Lemma map_click_emits_at_most_once :
  forall info (calls : list Types.WasteReport),
    let calls' := snd (MapComponent.onClick
                         (Some (fun r l => (l ++ [r])%list)) info calls) in
    calls' = match MapComponent.object info with
             | Some r => (calls ++ [r])%list
             | None => calls
             end.
Proof.
  intros [[r|]] calls; reflexivity.
Qed.

(** ** File selection *)

Section FileSelect.
Import Types UploadComponent.

(** The three ways [handleFileSelect] treats a file. *)
Lemma handleFileSelect_not_image env f s l :
  JS.startsWith (type f) "image/" = false ->
  handleFileSelect env (Some f) s l
  = setUploadStatus "Please select an image file" s l.
Proof.
  intros H. unfold handleFileSelect. rewrite H. reflexivity.
Qed.

Lemma handleFileSelect_too_large env f s l :
  JS.startsWith (type f) "image/" = true ->
  (maxFileSize < size f)%N ->
  handleFileSelect env (Some f) s l
  = setUploadStatus "File size must be less than 5MB" s l.
Proof.
  intros Hty Hsz. unfold handleFileSelect. rewrite Hty.
  apply N.ltb_lt in Hsz. rewrite Hsz. reflexivity.
Qed.

Lemma handleFileSelect_accepted env f s :
  acceptable f = true ->
  Eff.exec (handleFileSelect env (Some f)) s
  = {| isUploading := isUploading s; uploadStatus := "";
       selectedFile := Some f; previewUrl := createObjectURL env f;
       fileInputValue := fileInputValue s |}.
Proof.
  unfold acceptable. intros H. apply andb_true_iff in H as [Hty Hsz].
  apply negb_true_iff in Hsz.
  unfold handleFileSelect. rewrite Hty, Hsz. reflexivity.
Qed.

Lemma not_acceptable_cases f :
  acceptable f = false ->
  JS.startsWith (type f) "image/" = false
  \/ (JS.startsWith (type f) "image/" = true /\ (maxFileSize < size f)%N).
Proof.
  unfold acceptable. destruct (JS.startsWith (type f) "image/"); simpl.
  - intros H. right. split; [reflexivity|].
    apply negb_false_iff in H. now apply N.ltb_lt.
  - intros _. now left.
Qed.

(** An upload keeps the selection or clears it. *)
Lemma handleUpload_selection env s :
  selectedFile (Eff.exec (handleUpload env) s) = selectedFile s
  \/ selectedFile (Eff.exec (handleUpload env) s) = None.
Proof.
  unfold Eff.exec, handleUpload, Eff.tryCatchFinally, Eff.bind, Eff.gets,
    Eff.await.
  destruct (selectedFile s) as [g|] eqn:Hsel; [|left; exact Hsel].
  destruct (currentLocation env) as [loc|t];
    [ destruct (uploadResult env) as [[msg|]|t];
      [ | destruct (insertResult env) as [[msg|]|t] | ] | ];
    cbn; solve [ left; exact Hsel | right; reflexivity ].
Qed.

(** Cutting [handleUpload] at its awaits loses nothing: run one after the
    other, the stretches do what the whole handler does. *)
Lemma handleUpload_in_stretches env s l :
  handleUploadInStretches env s l = handleUpload env s l.
Proof.
  unfold handleUploadInStretches, handleUpload, handleUploadStart,
    Eff.tryCatchFinally, Eff.bind, Eff.gets, Eff.await.
  destruct (selectedFile s) as [g|]; [|reflexivity].
  cbn. unfold stretch, onUploadError, Eff.tryCatchFinally, Eff.bind, Eff.await.
  destruct (currentLocation env) as [loc|t]; cbn;
    [ unfold stretch, onUploadError, Eff.tryCatchFinally, Eff.bind, Eff.await;
      destruct (uploadResult env) as [[msg|]|t]; cbn;
      [ | unfold stretch, onUploadError, Eff.tryCatchFinally, Eff.bind,
            Eff.await;
          destruct (insertResult env) as [[msg|]|t]; cbn | ] | ];
    reflexivity.
Qed.

(** A stretch keeps the selection and the preview, or clears both. *)
Lemma handleUploadStart_selection env s :
  selectedFile (Eff.exec (handleUploadStart env) s) = selectedFile s
  /\ previewUrl (Eff.exec (handleUploadStart env) s) = previewUrl s.
Proof.
  unfold Eff.exec, handleUploadStart, Eff.bind, Eff.gets.
  destruct (selectedFile s) as [g|] eqn:Hsel; cbn; auto.
Qed.

Lemma handleUploadResume_selection pending s :
  (selectedFile (Eff.exec (handleUploadResume pending) s) = selectedFile s
   /\ previewUrl (Eff.exec (handleUploadResume pending) s) = previewUrl s)
  \/ (selectedFile (Eff.exec (handleUploadResume pending) s) = None
      /\ previewUrl (Eff.exec (handleUploadResume pending) s) = "").
Proof.
  unfold Eff.exec.
  destruct pending as [ | env g | env g loc | env g loc ];
    unfold handleUploadResume, stretch, onUploadError, Eff.tryCatchFinally,
      Eff.bind, Eff.await.
  - left. split; reflexivity.
  - destruct (currentLocation env) as [loc|t]; cbn; left; split; reflexivity.
  - destruct (uploadResult env) as [[msg|]|t]; cbn; left; split; reflexivity.
  - destruct (insertResult env) as [[msg|]|t]; cbn;
      solve [ left; split; reflexivity | right; split; reflexivity ].
Qed.

(** With a run pending or not, the selection is only ever a file that
    passed both checks. *)
Lemma run_selection_is_acceptable s pending :
  ReachableRun s pending ->
  forall f, selectedFile s = Some f -> acceptable f = true.
Proof.
  induction 1 as [ | env file s Hs IH | s Hs IH | env s Hs IH
                   | s pending Hs IH | cb s pending Hs IH
                   | s pending Hs IH ]; intros f Hf.
  - discriminate.
  - destruct file as [g|]; [|now apply IH].
    destruct (acceptable g) eqn:Hg.
    + rewrite handleFileSelect_accepted in Hf by assumption.
      simpl in Hf. now inversion Hf; subst.
    + apply IH. rewrite <- Hf.
      destruct (not_acceptable_cases g Hg) as [Hty | [Hty Hsz]];
        unfold Eff.exec;
        [ rewrite handleFileSelect_not_image by assumption
        | rewrite handleFileSelect_too_large by assumption ];
        reflexivity.
  - discriminate.
  - destruct (handleUploadStart_selection env s) as [Heq _].
    rewrite Heq in Hf. now apply IH.
  - destruct (handleUploadResume_selection pending s) as [[Heq _] | [Heq _]];
      rewrite Heq in Hf; [now apply IH | discriminate].
  - destruct cb. now apply IH.
  - now apply IH.
Qed.

(** The selection is only ever a file that passed both checks. *)
Lemma selection_is_acceptable s :
  Reachable s ->
  forall f, selectedFile s = Some f -> acceptable f = true.
Proof.
  intros [pending Hrun]. exact (run_selection_is_acceptable s pending Hrun).
Qed.

(** The spinner is on exactly while a run is pending. *)
Lemma uploading_while_pending s pending :
  ReachableRun s pending ->
  isUploading s = match pending with NoRun => false | _ => true end.
Proof.
  induction 1 as [ | env file s Hs IH | s Hs IH | env s Hs IH
                   | s pending Hs IH | cb s pending Hs IH
                   | s pending Hs IH ].
  - reflexivity.
  - rewrite <- IH. destruct file as [g|]; [|reflexivity].
    unfold Eff.exec, handleFileSelect.
    destruct (negb (JS.startsWith (type g) "image/")); [reflexivity|].
    destruct (maxFileSize <? size g)%N; reflexivity.
  - exact IH.
  - unfold pendingAfter, Eff.exec, handleUploadStart, Eff.bind, Eff.gets.
    destruct (selectedFile s) as [g|]; cbn; [reflexivity | exact IH].
  - unfold pendingAfter, Eff.exec.
    destruct pending as [ | env g | env g loc | env g loc ];
      unfold handleUploadResume, stretch, onUploadError, Eff.tryCatchFinally,
        Eff.bind, Eff.await.
    + exact IH.
    + destruct (currentLocation env) as [loc|t]; cbn;
        [exact IH | reflexivity].
    + destruct (uploadResult env) as [[msg|]|t]; cbn;
        solve [exact IH | reflexivity].
    + destruct (insertResult env) as [[msg|]|t]; cbn; reflexivity.
  - destruct cb. exact IH.
  - exact IH.
Qed.

(** A whole run of [handleUpload], started while none is pending, ends in a
    state the component can be in with no run pending. *)
Lemma whole_run_is_reachable env s :
  ReachableRun s NoRun ->
  ReachableRun (Eff.exec (handleUpload env) s) NoRun.
Proof.
  intros Hs.
  pose proof (RunStart env s Hs) as H0.
  pose proof (RunResume _ _ H0) as H1.
  pose proof (RunResume _ _ H1) as H2.
  pose proof (RunResume _ _ H2) as H3.
  revert H0 H1 H2 H3.
  unfold pendingAfter, Eff.exec, handleUpload, handleUploadStart,
    Eff.tryCatchFinally, Eff.bind, Eff.gets, Eff.await.
  destruct (selectedFile s) as [g|] eqn:Hsel.
  - cbn.
    unfold stretch, onUploadError, Eff.tryCatchFinally, Eff.bind, Eff.await.
    destruct (currentLocation env) as [loc|t]; cbn;
      [ unfold stretch, onUploadError, Eff.tryCatchFinally, Eff.bind,
          Eff.await;
        destruct (uploadResult env) as [[msg|]|t]; cbn;
        [ | unfold stretch, onUploadError, Eff.tryCatchFinally, Eff.bind,
              Eff.await;
            destruct (insertResult env) as [[msg|]|t]; cbn | ] | ];
      intros H0 H1 H2 H3; first [exact H3 | exact H2 | exact H1].
  - cbn. intros H0 _ _ _. exact H0.
Qed.

End FileSelect.

(** C9: a file that fails validation changes the status line and nothing
    else; a selection made earlier, with its preview URL, is still there
    afterwards. *)
Theorem rejected_file_keeps_previous_selection :
  forall env env0 (f f0 : Types.File) s,
    (JS.startsWith (Types.type f) "image/" = false
     \/ (UploadComponent.maxFileSize < Types.size f)%N) ->
    UploadComponent.acceptable f0 = true ->
    let select := UploadComponent.handleFileSelect env (Some f) in
    (UploadComponent.selectedFile (Eff.exec select s)
       = UploadComponent.selectedFile s
     /\ UploadComponent.previewUrl (Eff.exec select s)
        = UploadComponent.previewUrl s
     /\ UploadComponent.isUploading (Eff.exec select s)
        = UploadComponent.isUploading s
     /\ UploadComponent.fileInputValue (Eff.exec select s)
        = UploadComponent.fileInputValue s
     /\ Eff.logOf select s
        = [UploadComponent.StatusShown
             (UploadComponent.uploadStatus (Eff.exec select s))])
    /\ (let s0 := Eff.exec (UploadComponent.handleFileSelect env0 (Some f0)) s in
        UploadComponent.selectedFile (Eff.exec select s0) = Some f0
        /\ UploadComponent.previewUrl (Eff.exec select s0)
           = UploadComponent.createObjectURL env0 f0).
Proof.
  intros env env0 f f0 s Hbad Hok select.
  assert (Hframe : forall st,
    UploadComponent.selectedFile (Eff.exec select st)
      = UploadComponent.selectedFile st
    /\ UploadComponent.previewUrl (Eff.exec select st)
       = UploadComponent.previewUrl st
    /\ UploadComponent.isUploading (Eff.exec select st)
       = UploadComponent.isUploading st
    /\ UploadComponent.fileInputValue (Eff.exec select st)
       = UploadComponent.fileInputValue st
    /\ Eff.logOf select st
       = [UploadComponent.StatusShown
            (UploadComponent.uploadStatus (Eff.exec select st))]).
  { intros st. subst select. unfold Eff.exec, Eff.logOf.
    destruct (JS.startsWith (Types.type f) "image/") eqn:Hty.
    - destruct Hbad as [Hbad | Hbad]; [discriminate|].
      rewrite handleFileSelect_too_large by assumption. repeat split.
    - rewrite handleFileSelect_not_image by assumption. repeat split. }
  split; [apply Hframe|].
  intros s0. destruct (Hframe s0) as (Hsel & Hprev & _).
  rewrite Hsel, Hprev. subst s0.
  rewrite handleFileSelect_accepted by assumption. split; reflexivity.
Qed.

Lemma rejected_file_keeps_previous_selection_witness :
  let select :=
    UploadComponent.handleFileSelect Samples.allGood (Some Samples.notes) in
  let s0 := Eff.exec (UploadComponent.handleFileSelect Samples.allGood
                        (Some Samples.photo)) UploadComponent.initialState in
  UploadComponent.selectedFile (Eff.exec select s0) = Some Samples.photo
  /\ UploadComponent.previewUrl (Eff.exec select s0)
     = UploadComponent.createObjectURL Samples.allGood Samples.photo.
Proof.
  apply (rejected_file_keeps_previous_selection
           Samples.allGood Samples.allGood Samples.notes Samples.photo
           UploadComponent.initialState).
  - left. reflexivity.
  - reflexivity.
Defined.

(** C2: a file that is not an image, or is larger than 5 MiB, gets its own
    status message at once: the only thing the handler does is write that
    status, nothing reaches the location provider or the backend, and the
    file does not become the selection. *)
Theorem invalid_file_rejected_before_any_call :
  forall env (f : Types.File) s,
    UploadComponent.Reachable s ->
    (JS.startsWith (Types.type f) "image/" = false
     \/ (UploadComponent.maxFileSize < Types.size f)%N) ->
    let select := UploadComponent.handleFileSelect env (Some f) in
    (JS.startsWith (Types.type f) "image/" = false ->
       UploadComponent.uploadStatus (Eff.exec select s)
       = "Please select an image file")
    /\ (JS.startsWith (Types.type f) "image/" = true ->
        UploadComponent.uploadStatus (Eff.exec select s)
        = "File size must be less than 5MB")
    /\ Eff.logOf select s
       = [UploadComponent.StatusShown
            (UploadComponent.uploadStatus (Eff.exec select s))]
    /\ existsb UploadComponent.isOutsideCall (Eff.logOf select s) = false
    /\ UploadComponent.selectedFile (Eff.exec select s)
       = UploadComponent.selectedFile s
    /\ UploadComponent.selectedFile (Eff.exec select s) <> Some f.
Proof.
  intros env f s Hreach Hbad select.
  assert (Hrej : UploadComponent.acceptable f = false).
  { unfold UploadComponent.acceptable.
    destruct Hbad as [Hty | Hsz]; [now rewrite Hty|].
    apply N.ltb_lt in Hsz. rewrite Hsz. apply andb_false_r. }
  assert (Hkeep : UploadComponent.selectedFile (Eff.exec select s)
                  = UploadComponent.selectedFile s
                  /\ Eff.logOf select s
                     = [UploadComponent.StatusShown
                          (UploadComponent.uploadStatus (Eff.exec select s))]).
  { subst select. unfold Eff.exec, Eff.logOf.
    destruct (not_acceptable_cases f Hrej) as [Hty | [Hty Hsz]];
      [ rewrite handleFileSelect_not_image by assumption
      | rewrite handleFileSelect_too_large by assumption ];
      split; reflexivity. }
  destruct Hkeep as [Hsel Hlog].
  repeat split.
  - intros Hty. subst select. unfold Eff.exec.
    rewrite handleFileSelect_not_image by assumption. reflexivity.
  - intros Hty. subst select. unfold Eff.exec.
    destruct Hbad as [Hno | Hsz]; [congruence|].
    rewrite handleFileSelect_too_large by assumption. reflexivity.
  - exact Hlog.
  - rewrite Hlog. reflexivity.
  - exact Hsel.
  - rewrite Hsel. intros Hf.
    pose proof (selection_is_acceptable s Hreach f Hf). congruence.
Qed.

Lemma invalid_file_rejected_before_any_call_witness :
  UploadComponent.uploadStatus
    (Eff.exec (UploadComponent.handleFileSelect Samples.allGood
                 (Some Samples.hugePhoto)) UploadComponent.initialState)
  = "File size must be less than 5MB".
Proof.
  apply (invalid_file_rejected_before_any_call
           Samples.allGood Samples.hugePhoto UploadComponent.initialState).
  - exists UploadComponent.NoRun. apply UploadComponent.RunInitial.
  - right. reflexivity.
  - reflexivity.
Defined.

(** The two examples of the specification: a [text/plain] file and a 6 MiB
    image. *)
Example text_plain_is_rejected :
  Eff.logOf (UploadComponent.handleFileSelect Samples.allGood
               (Some Samples.notes)) UploadComponent.initialState
  = [UploadComponent.StatusShown "Please select an image file"].
Proof. reflexivity. Qed.

Example six_mebibytes_is_rejected :
  Eff.logOf (UploadComponent.handleFileSelect Samples.allGood
               (Some Samples.hugePhoto)) UploadComponent.initialState
  = [UploadComponent.StatusShown "File size must be less than 5MB"].
Proof. reflexivity. Qed.

(** A file of exactly 5 MiB passes. *)
Example five_mebibytes_is_accepted :
  UploadComponent.acceptable
    {| Types.name := "edge.png"; Types.type := "image/png";
       Types.size := 5 * 1024 * 1024 |} = true.
Proof. reflexivity. Qed.

(** Neither rejection message is drawn in the red of a failure: the status
    line only reddens on the words "error" and "failed". *)
Example rejection_messages_are_blue :
  UploadComponent.statusTone "Please select an image file"
  = UploadComponent.Blue
  /\ UploadComponent.statusTone "File size must be less than 5MB"
     = UploadComponent.Blue.
Proof. split; reflexivity. Qed.

(** ** The upload flow *)

(** Unfolds one run of [handleUpload] down to the outside's answers. *)
Ltac unfold_upload :=
  unfold Eff.exec, Eff.logOf, UploadComponent.handleUpload,
    Eff.tryCatchFinally, Eff.bind, Eff.gets, Eff.await.

(** An insert is only ever sent after the location was obtained and the
    bucket took the object. *)
Lemma insert_needs_location_and_upload :
  forall env s,
    existsb UploadComponent.isDbInsert
      (Eff.logOf (UploadComponent.handleUpload env) s) = true ->
    (exists loc, UploadComponent.currentLocation env = JS.Resolved loc)
    /\ UploadComponent.uploadResult env = JS.Resolved None.
Proof.
  intros env s. unfold_upload.
  destruct (UploadComponent.selectedFile s) as [f|]; [|cbn; discriminate].
  destruct (UploadComponent.currentLocation env) as [loc|t];
    [|cbn; discriminate].
  destruct (UploadComponent.uploadResult env) as [[msg|]|t];
    [cbn; discriminate| |cbn; discriminate].
  intros _. split; [now exists loc | reflexivity].
Qed.

(** C3: when the location is obtained and the bucket answers with an error,
    the status ends as "Upload failed: " followed by the bucket's message,
    and the run sends no insert. *)
Theorem storage_failure_reports_error_and_skips_insert :
  forall env s f loc msg,
    UploadComponent.selectedFile s = Some f ->
    UploadComponent.currentLocation env = JS.Resolved loc ->
    UploadComponent.uploadResult env = JS.Resolved (Some msg) ->
    let s' := Eff.exec (UploadComponent.handleUpload env) s in
    let log := Eff.logOf (UploadComponent.handleUpload env) s in
    UploadComponent.uploadStatus s' = "Upload failed: " ++ msg
    /\ log = [ UploadComponent.StatusShown "Getting your location...";
               UploadComponent.GetCurrentLocation;
               UploadComponent.StatusShown "Uploading photo...";
               UploadComponent.StorageUpload "waste-photos"
                 (UploadComponent.filePathOf env f) f;
               UploadComponent.ConsoleError
                 (JS.ErrorObj ("Upload failed: " ++ msg));
               UploadComponent.StatusShown ("Upload failed: " ++ msg) ]
    /\ existsb UploadComponent.isDbInsert log = false
    /\ UploadComponent.isUploading s' = false
    /\ UploadComponent.selectedFile s' = Some f.
Proof.
  intros env s f loc msg Hsel Hloc Hup s' log. subst s' log.
  unfold_upload. rewrite Hsel, Hloc, Hup. cbn.
  repeat split. exact Hsel.
Qed.

Lemma storage_failure_reports_error_and_skips_insert_witness :
  let s := Eff.exec (UploadComponent.handleFileSelect Samples.bucketRefuses
                       (Some Samples.photo)) UploadComponent.initialState in
  UploadComponent.uploadStatus
    (Eff.exec (UploadComponent.handleUpload Samples.bucketRefuses) s)
  = "Upload failed: Bucket not found"
  /\ existsb UploadComponent.isDbInsert
       (Eff.logOf (UploadComponent.handleUpload Samples.bucketRefuses) s)
     = false.
Proof.
  intros s.
  destruct (storage_failure_reports_error_and_skips_insert
              Samples.bucketRefuses s Samples.photo Samples.here
              "Bucket not found" eq_refl eq_refl eq_refl)
    as (Hstatus & _ & Hnone & _).
  split; [exact Hstatus | exact Hnone].
Defined.

(** The storage key of the sample run. *)
Example sample_file_path :
  UploadComponent.filePathOf Samples.allGood Samples.photo
  = "photos/1714557600000-9q1.jpg".
Proof. reflexivity. Qed.



(** Without a selection nothing is attempted at all. *)
Example upload_without_selection :
  Eff.logOf (UploadComponent.handleUpload Samples.allGood)
    UploadComponent.initialState
  = [UploadComponent.StatusShown "Please select a photo first"].
Proof. reflexivity. Qed.

(** ** The reports collection *)

Local Open Scope list_scope.

Section Collection.
Import Types Home.

Lemma reports_after_insert s r :
  reports (step s (Inserted r)) = r :: reports s.
Proof. reflexivity. Qed.

Lemma reports_after_fetch s F :
  reports (step s (fetched F)) = F.
Proof. reflexivity. Qed.

Lemma run_app s t1 t2 : run s (t1 ++ t2) = run (run s t1) t2.
Proof. unfold run. apply fold_left_app. Qed.

(** A burst of inserts ends up in front of the collection, latest first. *)
Lemma reports_after_inserts E :
  forall s, reports (run s (map Inserted E)) = rev E ++ reports s.
Proof.
  induction E as [|r E IH]; intros s.
  - reflexivity.
  - change (run s (map Inserted (r :: E)))
      with (run (step s (Inserted r)) (map Inserted E)).
    rewrite IH, reports_after_insert. simpl rev.
    rewrite <- app_assoc. reflexivity.
Qed.

Lemma interleaving_nil_left {A} (ys zs : list A) :
  Interleaving [] ys zs -> zs = ys.
Proof.
  intros H. remember (@nil A) as xs eqn:Hxs.
  induction H as [ | x xs ys zs H IH | y xs ys zs H IH ].
  - reflexivity.
  - discriminate.
  - f_equal. now apply IH.
Qed.

(** Merging one event into a sequence cuts the sequence in two. *)
Lemma interleaving_single {A} (x : A) (ys zs : list A) :
  Interleaving [x] ys zs ->
  exists before after, ys = before ++ after /\ zs = before ++ x :: after.
Proof.
  intros H. remember [x] as xs eqn:Hxs.
  induction H as [ | x0 xs ys zs H IH | y xs ys zs H IH ].
  - discriminate.
  - inversion Hxs; subst. apply interleaving_nil_left in H. subst zs.
    exists [], ys. split; reflexivity.
  - destruct (IH Hxs) as (before & after & Hys & Hzs). subst.
    exists (y :: before), after. split; reflexivity.
Qed.

(** Whatever the interleaving, the collection is the bulk result with the
    inserts delivered after it in front. *)
Lemma reports_after_interleaving s F E trace :
  Interleaving [fetched F] (map Inserted E) trace ->
  exists E1 E2, E = E1 ++ E2 /\ reports (run s trace) = rev E2 ++ F.
Proof.
  intros H. apply interleaving_single in H as (before & after & Hmap & Htr).
  apply map_eq_app in Hmap as (E1 & E2 & HE & H1 & H2).
  exists E1, E2. split; [exact HE|]. subst.
  rewrite run_app.
  change (run (run s (map Inserted E1)) (fetched F :: map Inserted E2))
    with (run (step (run s (map Inserted E1)) (fetched F)) (map Inserted E2)).
  rewrite reports_after_inserts, reports_after_fetch. reflexivity.
Qed.

Lemma occurrences_app i l1 l2 :
  occurrences i (l1 ++ l2) = occurrences i l1 + occurrences i l2.
Proof.
  unfold occurrences, ids. rewrite map_app. apply count_occ_app.
Qed.

Lemma occurrences_rev i l : occurrences i (rev l) = occurrences i l.
Proof.
  unfold occurrences, ids. rewrite map_rev. apply count_occ_rev.
Qed.

Lemma nodup_app_disjoint {A} (l1 l2 : list A) :
  NoDup (l1 ++ l2) -> forall a, In a l1 -> ~ In a l2.
Proof.
  induction l1 as [|x l1 IH]; intros H a Ha; [contradiction|].
  simpl in H. apply NoDup_cons_iff in H as [Hx Hrest].
  destruct Ha as [-> | Ha].
  - intros Hin. apply Hx. apply in_or_app. now right.
  - now apply IH.
Qed.

Lemma ids_nodup_after F E1 E2 :
  NoDup (ids ((E1 ++ E2) ++ F)) -> NoDup (ids (rev E2 ++ F)).
Proof.
  unfold ids. rewrite !map_app, map_rev. intros H.
  rewrite <- app_assoc in H. apply NoDup_app_remove_l in H.
  apply NoDup_app.
  - apply NoDup_rev. now apply NoDup_app_remove_r in H.
  - now apply NoDup_app_remove_l in H.
  - intros a Ha. apply (nodup_app_disjoint _ _ H). now apply in_rev.
Qed.

End Collection.

(** C1, as stated, fails: the INSERT handler has no membership check.  An
    insert whose id came with the bulk result, or with an earlier insert, is
    prepended again and the id is then there twice. *)
Lemma duplicate_insert_is_prepended_again :
  let afterFetch :=
    Home.run Home.mounted [Home.fetched [Samples.r1]; Home.Inserted Samples.r1] in
  let afterTwoInserts :=
    Home.run Home.mounted
      [Home.fetched []; Home.Inserted Samples.r1; Home.Inserted Samples.r1] in
  Home.reports afterFetch = [Samples.r1; Samples.r1]
  /\ Home.occurrences "r1" (Home.reports afterFetch) = 2
  /\ ~ NoDup (Home.ids (Home.reports afterFetch))
  /\ Home.reports afterTwoInserts = [Samples.r1; Samples.r1]
  /\ Home.occurrences "r1" (Home.reports afterTwoInserts) = 2.
Proof.
  cbv zeta. repeat split.
  intros H. inversion H as [|x l Hnotin Hrest]; subst.
  apply Hnotin. left. reflexivity.
Qed.

(** An insert delivered before the bulk result is stored is overwritten by
    it. *)
Example early_insert_is_overwritten :
  Home.reports
    (Home.run Home.mounted [Home.Inserted Samples.r2; Home.fetched [Samples.r1]])
  = [Samples.r1].
Proof. reflexivity. Qed.

(** C1, amended: every streamed insert is prepended, whether or not its id
    is already there.  For a bulk result [F] and inserts [E] in any
    interleaving, the collection is the inserts delivered after [F] was
    stored, latest first, followed by [F]; an id occurs in it as often as in
    those inserts and in [F] together.  When no id repeats among [E] and
    [F], no id repeats in the collection, and every id of [F] and of the
    later inserts is there exactly once. *)
Theorem inserts_are_prepended_without_id_check :
  forall s F E trace,
    Home.Interleaving [Home.fetched F] (map Home.Inserted E) trace ->
    (forall s0 r,
        Home.reports (Home.step s0 (Home.Inserted r)) = r :: Home.reports s0)
    /\ exists E1 E2,
        E = E1 ++ E2
        /\ Home.reports (Home.run s trace) = rev E2 ++ F
        /\ (forall i,
              Home.occurrences i (Home.reports (Home.run s trace))
              = Home.occurrences i E2 + Home.occurrences i F)
        /\ (NoDup (Home.ids (E ++ F)) ->
            NoDup (Home.ids (Home.reports (Home.run s trace)))
            /\ forall r, In r (E2 ++ F) ->
                 Home.occurrences (Types.id r)
                   (Home.reports (Home.run s trace)) = 1).
Proof.
  intros s F E trace Hmerge.
  split; [intros; apply reports_after_insert|].
  destruct (reports_after_interleaving s F E trace Hmerge)
    as (E1 & E2 & HE & Hreports).
  exists E1, E2. rewrite Hreports.
  split; [exact HE|]. split; [reflexivity|]. split.
  - intros i. now rewrite occurrences_app, occurrences_rev.
  - intros Hnodup. subst E.
    pose proof (ids_nodup_after F E1 E2 Hnodup) as Hfinal.
    split; [exact Hfinal|].
    intros r Hr. unfold Home.occurrences.
    apply NoDup_count_occ'; [exact Hfinal|].
    unfold Home.ids. apply in_map.
    apply in_app_or in Hr as [Hr | Hr]; apply in_or_app;
      [left; now apply -> in_rev | now right].
Qed.

Lemma inserts_are_prepended_without_id_check_witness :
  NoDup (Home.ids (Home.reports
    (Home.run Home.mounted [Home.fetched [Samples.r1]; Home.Inserted Samples.r2]))).
Proof.
  assert (Hmerge : Home.Interleaving [Home.fetched [Samples.r1]]
                     (map Home.Inserted [Samples.r2])
                     [Home.fetched [Samples.r1]; Home.Inserted Samples.r2]).
  { apply Home.InterleavingLeft, Home.InterleavingRight, Home.InterleavingNil. }
  assert (Hids : NoDup (Home.ids ([Samples.r2] ++ [Samples.r1]))).
  { apply NoDup_cons.
    - intros [H | []]. discriminate H.
    - apply NoDup_cons; [intros [] | apply NoDup_nil]. }
  destruct (inserts_are_prepended_without_id_check
              Home.mounted [Samples.r1] [Samples.r2] _ Hmerge)
    as (_ & E1 & E2 & _ & _ & _ & Hunique).
  exact (proj1 (Hunique Hids)).
Defined.

(** ** The bulk fetch *)

(** C5, as stated, fails: a failed fetch does not empty the collection.  A
    refetch that fails after an upload leaves the rows of the earlier fetch
    in place, and so does a first fetch that fails after an insert was
    streamed in. *)
Lemma failed_fetch_keeps_earlier_rows :
  let refetchFailed :=
    Home.run Home.mounted
      [ Home.fetched [Samples.r1]; Home.UploadSucceeded;
        Home.FetchSettled
          (JS.Resolved {| Home.data := None;
                          Home.queryError := Some (JS.ErrorObj "network") |}) ] in
  let firstFetchFailed :=
    Home.run Home.mounted
      [ Home.Inserted Samples.r2;
        Home.FetchSettled
          (JS.Resolved {| Home.data := None;
                          Home.queryError := Some (JS.ErrorObj "network") |}) ] in
  Home.reports refetchFailed = [Samples.r1]
  /\ Home.reports refetchFailed <> []
  /\ Home.error refetchFailed = "Failed to load reports"
  /\ Home.reports firstFetchFailed = [Samples.r2]
  /\ Home.reports firstFetchFailed <> [].
Proof.
  cbv zeta. repeat split; discriminate.
Qed.

(** C5, amended: a fetch that fails, by rejection or by an error in the
    response, sets the error message and leaves the collection as it was
    (empty when it was empty); the page then shows the error screen, which a
    fetch of zero rows never does; calling the fetch again and succeeding
    clears the error and stores the new rows.  A fetch that succeeds
    replaces the collection by the rows delivered, by none when [data] is
    null. *)
Theorem fetch_failure_keeps_collection_and_is_retryable :
  forall numberToString formatTimestamp s,
    let render := Home.render numberToString formatTimestamp in
    let onFailure settled :=
      let s' := Home.step s (Home.FetchSettled settled) in
      Home.reports s' = Home.reports s
      /\ Home.error s' = "Failed to load reports"
      /\ Home.isLoading s' = false
      /\ render s' = Home.ErrorScreen "Failed to load reports"
      /\ (forall F,
            let retried := Home.run s' [Home.FetchStarted; Home.fetched F] in
            Home.reports retried = F
            /\ Home.error retried = ""
            /\ Home.isLoading retried = false) in
    (forall t, onFailure (JS.Rejected t))
    /\ (forall rows err,
          onFailure (JS.Resolved {| Home.data := rows;
                                    Home.queryError := Some err |}))
    /\ (let empty := Home.run s [Home.FetchStarted; Home.fetched []] in
        Home.reports empty = []
        /\ Home.error empty = ""
        /\ render empty
           = Home.MainScreen [] (Home.isUploadModalOpen s)
               (ReportModal.ReportModal numberToString formatTimestamp
                  (Home.selectedReport s) (Home.isModalOpen s))
               0 true)
    /\ (forall F, Home.reports (Home.step s (Home.fetched F)) = F)
    /\ Home.reports
         (Home.step s (Home.FetchSettled
            (JS.Resolved {| Home.data := None; Home.queryError := None |})))
       = [].
Proof.
  intros nts ft s. cbv zeta. repeat split.
Qed.

(** From the initial state, where the collection is empty, a failed first
    fetch does leave it empty. *)
Example failed_first_fetch_alone :
  Home.reports
    (Home.run Home.mounted [Home.FetchSettled (JS.Rejected JS.OtherThrown)])
  = [].
Proof. reflexivity. Qed.

(** C6: the fetch asks for the reports by [created_at] descending and
    stores the rows in the order delivered, so rows delivered most recent
    first are stored most recent first; each streamed insert goes to the
    front; after the bulk result [F], inserts [E] leave the collection as
    [E] reversed followed by [F].  When some of the inserts are delivered
    before [F] is stored, it is the later ones that stand in front of
    [F]. *)
Theorem bulk_rows_keep_order_and_inserts_go_first :
  forall timeOf s F E,
    Home.mostRecentFirst timeOf F ->
    Eff.logOf Home.fetchReportsStart s
      = [Home.Select {| Home.table := "reports"; Home.columns := "*";
                        Home.orderColumn := "created_at";
                        Home.ascending := false |}]
    /\ Home.reports (Home.step s (Home.fetched F)) = F
    /\ Home.mostRecentFirst timeOf (Home.reports (Home.step s (Home.fetched F)))
    /\ (forall s0 r,
          Home.reports (Home.step s0 (Home.Inserted r)) = r :: Home.reports s0)
    /\ Home.reports (Home.run s (Home.fetched F :: map Home.Inserted E))
       = rev E ++ F
    /\ (forall trace,
          Home.Interleaving [Home.fetched F] (map Home.Inserted E) trace ->
          exists E1 E2,
            E = E1 ++ E2 /\ Home.reports (Home.run s trace) = rev E2 ++ F).
Proof.
  intros timeOf s F E Hsorted.
  split; [reflexivity|]. split; [reflexivity|].
  split; [exact Hsorted|]. split; [reflexivity|]. split.
  - change (Home.run s (Home.fetched F :: map Home.Inserted E))
      with (Home.run (Home.step s (Home.fetched F)) (map Home.Inserted E)).
    now rewrite reports_after_inserts, reports_after_fetch.
  - intros trace. apply reports_after_interleaving.
Qed.

Lemma bulk_rows_keep_order_and_inserts_go_first_witness :
  Home.reports
    (Home.run Home.mounted
       (Home.fetched [Samples.r2; Samples.r1] :: map Home.Inserted [Samples.r1]))
  = rev [Samples.r1] ++ [Samples.r2; Samples.r1].
Proof.
  assert (Hsorted : Home.mostRecentFirst Samples.timeOf [Samples.r2; Samples.r1]).
  { unfold Home.mostRecentFirst.
    apply Sorted_cons.
    - apply Sorted_cons; [apply Sorted_nil | apply HdRel_nil].
    - apply HdRel_cons. intros H. discriminate H. }
  exact (proj1 (proj2 (proj2 (proj2 (proj2
    (bulk_rows_keep_order_and_inserts_go_first
       Samples.timeOf Home.mounted [Samples.r2; Samples.r1] [Samples.r1]
       Hsorted)))))).
Defined.

(** Inserts delivered out of creation order are kept in delivery order: the
    older report ends up in front of the newer one. *)
Example late_delivery_breaks_time_order :
  let final :=
    Home.run Home.mounted
      [Home.fetched []; Home.Inserted Samples.r2; Home.Inserted Samples.r1] in
  Home.reports final = [Samples.r1; Samples.r2]
  /\ ~ Home.mostRecentFirst Samples.timeOf (Home.reports final).
Proof.
  cbv zeta. split; [reflexivity|].
  intros H. inversion H as [|a l Hrest Hhd]; subst.
  inversion Hhd as [|b l' Hle]; subst.
  apply Hle. reflexivity.
Qed.

(** ** Fixed-point printing *)

Section FixedPrinting.
Import JS.
Local Open Scope string_scope.

Lemma length_app (s t : string) :
  String.length (s ++ t) = String.length s + String.length t.
Proof. induction s as [|c s IH]; simpl; [reflexivity | now rewrite IH]. Qed.

Lemma length_zeros n : String.length (zeros n) = n.
Proof. induction n as [|n IH]; simpl; [reflexivity | now rewrite IH]. Qed.

Lemma length_take n : forall s,
  String.length (take n s) = Nat.min n (String.length s).
Proof.
  induction n as [|n IH]; intros [|c s]; simpl; try reflexivity.
  now rewrite IH.
Qed.

Lemma length_drop n : forall s,
  String.length (drop n s) = String.length s - n.
Proof.
  induction n as [|n IH]; intros [|c s]; simpl; try reflexivity.
  apply IH.
Qed.

Lemma take_drop n : forall s, take n s ++ drop n s = s.
Proof.
  induction n as [|n IH]; intros [|c s]; simpl; try reflexivity.
  now rewrite IH.
Qed.

Lemma allDigits_app s t :
  allDigits (s ++ t) = allDigits s && allDigits t.
Proof.
  induction s as [|c s IH]; simpl; [reflexivity|].
  rewrite IH. now rewrite andb_assoc.
Qed.

Lemma allDigits_zeros n : allDigits (zeros n) = true.
Proof. induction n as [|n IH]; simpl; [reflexivity | exact IH]. Qed.

Lemma allDigits_take_drop n s :
  allDigits s = true ->
  allDigits (take n s) = true /\ allDigits (drop n s) = true.
Proof.
  intros H. rewrite <- (take_drop n s), allDigits_app in H.
  now apply andb_true_iff in H.
Qed.

Lemma allDigits_string_of_uint d :
  allDigits (NilEmpty.string_of_uint d) = true.
Proof. induction d; simpl; try reflexivity; exact IHd. Qed.

Lemma allDigits_digits n : allDigits (digits n) = true.
Proof. apply allDigits_string_of_uint. Qed.

(** With at least one digit asked for, the digits are cut [f] before the
    end, after padding to [f + 1] of them. *)
Lemma fixedDigits_shape n f :
  0 < f ->
  exists whole fraction,
    fixedDigits n f = whole ++ "." ++ fraction
    /\ whole <> ""
    /\ allDigits whole = true
    /\ allDigits fraction = true
    /\ String.length fraction = f.
Proof.
  intros Hf. unfold fixedDigits.
  destruct f as [|f']; [inversion Hf|].
  set (f := S f') in *.
  set (m := digits (Z.to_N n)).
  set (k := String.length m).
  set (m' := if (k <=? f)%nat then zeros (f + 1 - k) ++ m else m).
  set (k' := if (k <=? f)%nat then f + 1 else k).
  assert (Hlen : String.length m' = k' /\ f < k').
  { subst m' k'. destruct (Nat.leb_spec k f) as [Hle | Hgt].
    - rewrite length_app, length_zeros. fold k. lia.
    - fold k. lia. }
  assert (Hdig : allDigits m' = true).
  { subst m'. destruct (k <=? f)%nat; [|apply allDigits_digits].
    rewrite allDigits_app, allDigits_zeros. apply allDigits_digits. }
  destruct Hlen as [Hlen Hlt].
  destruct (allDigits_take_drop (k' - f) m' Hdig) as [Ha Hb].
  exists (take (k' - f) m'), (drop (k' - f) m').
  repeat split; try assumption.
  - intros Hempty.
    assert (Hl : String.length (take (k' - f) m') = 0) by now rewrite Hempty.
    rewrite length_take, Hlen in Hl. lia.
  - rewrite length_drop, Hlen. lia.
Qed.

(** The integer [toFixed] prints is the nearest one to the scaled value: for
    a negative exponent [e], twice the distance between [n] and
    [m * 10^f / 2^(-e)] is at most one, the upper end excluded. *)
Lemma nearestScaled_is_nearest m e f :
  (e < 0)%Z ->
  let n := nearestScaled m e f in
  let scale := (2 ^ (- e))%Z in
  (2 * n * scale <= 2 * Z.pos m * 10 ^ Z.of_nat f + scale
   < 2 * (n + 1) * scale)%Z.
Proof.
  intros He n scale. subst n. unfold nearestScaled.
  destruct (Z.leb_spec 0 e) as [Hge | _]; [lia|].
  assert (Hpos : (0 < scale)%Z) by (subst scale; apply Z.pow_pos_nonneg; lia).
  assert (Hpow : (2 ^ (- e + 1) = 2 * scale)%Z).
  { subst scale. rewrite Z.pow_add_r by lia. rewrite Z.pow_1_r. lia. }
  rewrite Hpow. change (2 ^ (- e))%Z with scale.
  set (a := (2 * Z.pos m * 10 ^ Z.of_nat f + scale)%Z).
  pose proof (Z.div_mod a (2 * scale) ltac:(lia)) as Hdm.
  pose proof (Z.mod_pos_bound a (2 * scale) ltac:(lia)) as Hmod.
  clearbody a. clearbody scale.
  set (q := (a / (2 * scale))%Z) in *.
  set (r := (a mod (2 * scale))%Z) in *.
  clearbody q r.
  replace (2 * q * scale)%Z with (2 * scale * q)%Z by ring.
  replace (2 * (q + 1) * scale)%Z with (2 * scale * q + 2 * scale)%Z by ring.
  lia.
Qed.

Lemma absAtMost_fixedNotation bound x :
  (bound < 10 ^ 21)%Z ->
  absAtMost bound x = true -> fixedNotation x = true.
Proof.
  intros Hb. destruct x as [s | s | | s m e];
    cbn [absAtMost fixedNotation]; try easy.
  unfold atLeast1e21. set (big := (10 ^ 21)%Z) in *.
  destruct (Z.leb_spec 0 e) as [He | He]; intros H;
    apply Z.leb_le in H; apply negb_true_iff, Z.leb_gt.
  - lia.
  - assert (0 < 2 ^ (- e))%Z by (apply Z.pow_pos_nonneg; lia). nia.
Qed.

(** A number in fixed notation is printed with exactly [f] decimals. *)
Lemma toFixed_fixed_point numberToString x f :
  0 < f ->
  fixedNotation x = true ->
  FixedPoint f (toFixed numberToString x f).
Proof.
  intros Hf Hx. destruct x as [s | s | | s m e]; simpl in Hx; try discriminate.
  - simpl. destruct (fixedDigits_shape 0 f Hf) as (a & b & Heq & Ha & Hda & Hdb & Hb).
    exists "", a, b. rewrite Heq. repeat split; auto.
  - simpl. apply negb_true_iff in Hx. rewrite Hx.
    destruct (fixedDigits_shape (nearestScaled m e f) f Hf)
      as (a & b & Heq & Ha & Hda & Hdb & Hb).
    exists (if s then "-" else ""), a, b. rewrite Heq.
    repeat split; auto. destruct s; auto.
Qed.

Lemma readDigits_leading_zero s : readDigits (String "0" s) = readDigits s.
Proof.
  unfold readDigits. simpl.
  destruct (NilEmpty.uint_of_string s); reflexivity.
Qed.

Lemma readDigits_digits n : readDigits (digits n) = Some n.
Proof.
  unfold readDigits, digits. rewrite NilEmpty.usu. simpl.
  now rewrite DecimalN.Unsigned.of_to.
Qed.

Lemma readDigits_padded j n : readDigits (zeros j ++ digits n) = Some n.
Proof.
  induction j as [|j IH]; simpl.
  - apply readDigits_digits.
  - now rewrite readDigits_leading_zero.
Qed.

(** Taking the point out of what [fixedDigits] prints gives back the
    integer it was given. *)
Lemma fixedDigits_read_back n f :
  0 < f ->
  exists whole fraction,
    fixedDigits n f = whole ++ "." ++ fraction
    /\ String.length fraction = f
    /\ readDigits (whole ++ fraction) = Some (Z.to_N n).
Proof.
  intros Hf. unfold fixedDigits.
  destruct f as [|f']; [inversion Hf|].
  set (f := S f') in *.
  set (m := digits (Z.to_N n)).
  set (k := String.length m).
  set (m' := if (k <=? f)%nat then zeros (f + 1 - k) ++ m else m).
  set (k' := if (k <=? f)%nat then f + 1 else k).
  assert (Hlen : String.length m' = k' /\ f < k').
  { subst m' k'. destruct (Nat.leb_spec k f) as [Hle | Hgt].
    - rewrite length_app, length_zeros. fold k. lia.
    - fold k. lia. }
  assert (Hread : readDigits m' = Some (Z.to_N n)).
  { subst m'. destruct (k <=? f)%nat.
    - apply readDigits_padded.
    - apply readDigits_digits. }
  destruct Hlen as [Hlen Hlt].
  exists (take (k' - f) m'), (drop (k' - f) m').
  split; [reflexivity|]. split.
  - rewrite length_drop, Hlen. lia.
  - now rewrite take_drop.
Qed.

Lemma nearestScaled_nonneg m e f : (0 <= nearestScaled m e f)%Z.
Proof.
  unfold nearestScaled. destruct (Z.leb_spec 0 e) as [He | He].
  - assert (0 <= 2 ^ e)%Z by (apply Z.pow_nonneg; lia).
    assert (0 <= 10 ^ Z.of_nat f)%Z by (apply Z.pow_nonneg; lia).
    nia.
  - assert (0 < 2 ^ (- e))%Z by (apply Z.pow_pos_nonneg; lia).
    assert (0 <= 10 ^ Z.of_nat f)%Z by (apply Z.pow_nonneg; lia).
    apply Z.div_pos; [nia|]. apply Z.pow_pos_nonneg; lia.
Qed.

Lemma zeros_then_zero f : zeros f ++ "0" = String "0" (zeros f).
Proof. induction f as [|f IH]; simpl; [reflexivity | now rewrite IH]. Qed.

Lemma fixedDigits_of_zero f : 0 < f -> fixedDigits 0 f = "0." ++ zeros f.
Proof.
  intros Hf. destruct f as [|f]; [inversion Hf|].
  unfold fixedDigits.
  change (digits (Z.to_N 0)) with "0".
  change (String.length "0") with 1.
  change (1 <=? S f)%nat with true. cbv iota.
  replace (S f + 1 - 1) with (S f) by lia.
  replace (S f + 1 - S f) with 1 by lia.
  change (zeros (S f) ++ "0") with (String "0" (zeros f ++ "0")).
  change (take 1 (String "0" (zeros f ++ "0"))) with "0".
  change (drop 1 (String "0" (zeros f ++ "0"))) with (zeros f ++ "0").
  now rewrite zeros_then_zero.
Qed.

(** What [toFixed] prints of a number in fixed notation shows that number:
    the digits are those of the nearest integer to the scaled magnitude. *)
Lemma toFixed_shows numberToString x f :
  0 < f ->
  fixedNotation x = true ->
  Shows f x (toFixed numberToString x f).
Proof.
  intros Hf Hx. destruct x as [s | s | | s m e];
    cbn [fixedNotation] in Hx; try discriminate.
  - cbn [Shows toFixed]. now apply fixedDigits_of_zero.
  - cbn [Shows toFixed]. apply negb_true_iff in Hx. rewrite Hx.
    destruct (fixedDigits_read_back (nearestScaled m e f) f Hf)
      as (whole & fraction & Heq & Hlen & Hread).
    exists whole, fraction, (nearestScaled m e f).
    rewrite Heq. split; [reflexivity|]. split; [exact Hlen|].
    split; [exact Hread|].
    split; [apply nearestScaled_nonneg|]. split.
    + intros He. unfold nearestScaled.
      destruct (Z.leb_spec 0 e); [reflexivity | lia].
    + intros He. exact (nearestScaled_is_nearest m e f He).
Qed.

End FixedPrinting.

(** Latitudes and longitudes in the ranges of the data model are printed in
    fixed notation. *)
Lemma coordinates_in_range_are_fixed_notation (r : Types.WasteReport) :
  JS.absAtMost 90 (Types.latitude r) = true ->
  JS.absAtMost 180 (Types.longitude r) = true ->
  JS.fixedNotation (Types.latitude r) = true
  /\ JS.fixedNotation (Types.longitude r) = true.
Proof.
  intros Hlat Hlng.
  split; eapply absAtMost_fixedNotation; try eassumption; reflexivity.
Qed.

(** C8: for a report whose coordinates are finite and below [10^21] in
    magnitude, as every latitude and longitude of the data model is, the
    modal's location line is the latitude and the longitude each printed
    with exactly six decimals, separated by ", ", and each numeral shows its
    coordinate: its sign, and for digits the integer nearest to the
    coordinate's magnitude times [10^6].  The Open-in-Maps button opens
    [https://www.google.com/maps?q=<lat>,<lng>], built from the report's own
    latitude and longitude, in a new browsing context. *)
Theorem coordinates_six_decimals_and_maps_link :
  forall numberToString formatTimestamp (r : Types.WasteReport),
    JS.fixedNotation (Types.latitude r) = true ->
    JS.fixedNotation (Types.longitude r) = true ->
    let shown := ReportModal.view numberToString formatTimestamp r in
    (exists lat6 lng6,
        ReportModal.location shown = (lat6 ++ ", " ++ lng6)%string
        /\ lat6 = JS.toFixed numberToString (Types.latitude r) 6
        /\ lng6 = JS.toFixed numberToString (Types.longitude r) 6
        /\ JS.FixedPoint 6 lat6
        /\ JS.FixedPoint 6 lng6
        /\ JS.Shows 6 (Types.latitude r) lat6
        /\ JS.Shows 6 (Types.longitude r) lng6)
    /\ ReportModal.onOpenInMaps shown
       = {| ReportModal.url :=
              ("https://" ++ "www.google.com" ++ "/maps?q="
               ++ numberToString (Types.latitude r) ++ ","
               ++ numberToString (Types.longitude r))%string;
            ReportModal.target := "_blank" |}
    /\ ReportModal.ReportModal numberToString formatTimestamp (Some r) true
       = Some shown.
Proof.
  intros nts ft r Hlat Hlng shown. split; [|split; reflexivity].
  exists (JS.toFixed nts (Types.latitude r) 6),
         (JS.toFixed nts (Types.longitude r) 6).
  split; [reflexivity|]. split; [reflexivity|]. split; [reflexivity|].
  split; [|split; [|split]];
    first [ apply toFixed_fixed_point | apply toFixed_shows ];
    solve [lia | assumption].
Qed.

(** The theorem at the sample report, whose coordinates are 16.29044 and
    80.45559: the line it fixes is "16.290440, 80.455590", whose digits are
    the nearest integers to the coordinates times [10^6], and the link is
    the one to those coordinates. *)
Lemma coordinates_six_decimals_and_maps_link_witness :
  let shown := ReportModal.view Samples.showNumber (fun ts => ts) Samples.r1 in
  JS.fixedNotation (Types.latitude Samples.r1) = true
  /\ JS.fixedNotation (Types.longitude Samples.r1) = true
  /\ ReportModal.location shown = "16.290440, 80.455590"%string
  /\ JS.Shows 6 (Types.latitude Samples.r1) "16.290440"
  /\ JS.Shows 6 (Types.longitude Samples.r1) "80.455590"
  /\ JS.NearestTo 4585351219606339 (-48) 6 16290440
  /\ JS.NearestTo 5661558830373022 (-46) 6 80455590
  /\ ReportModal.onOpenInMaps shown
     = {| ReportModal.url :=
            "https://www.google.com/maps?q=16.29044,80.45559"%string;
          ReportModal.target := "_blank" |}.
Proof.
  intros shown.
  destruct (coordinates_six_decimals_and_maps_link
              Samples.showNumber (fun ts => ts) Samples.r1 eq_refl eq_refl)
    as ((lat6 & lng6 & Hline & Hlat6 & Hlng6 & _ & _ & Hlat & Hlng)
        & Hlink & _).
  assert (Elat : lat6 = "16.290440"%string)
    by (rewrite Hlat6; vm_compute; reflexivity).
  assert (Elng : lng6 = "80.455590"%string)
    by (rewrite Hlng6; vm_compute; reflexivity).
  rewrite Elat in Hlat, Hline. rewrite Elng in Hlng, Hline.
  split; [reflexivity|]. split; [reflexivity|].
  split; [exact Hline|]. split; [exact Hlat|]. split; [exact Hlng|].
  split; [|split; [|exact Hlink]].
  - split; [vm_compute; discriminate|].
    split; [intros H; exfalso; apply H; reflexivity|].
    intros _. split; [vm_compute; discriminate | vm_compute; reflexivity].
  - split; [vm_compute; discriminate|].
    split; [intros H; exfalso; apply H; reflexivity|].
    intros _. split; [vm_compute; discriminate | vm_compute; reflexivity].
Defined.

(** The location line of the sample report. *)
Example sample_location_line :
  ReportModal.location
    (ReportModal.view (fun _ => "n") (fun ts => ts) Samples.r1)
  = "16.290440, 80.455590".
Proof. vm_compute. reflexivity. Qed.

(** NaN is not printed in fixed notation: such a coordinate would show
    whatever [Number::toString] gives. *)
Example toFixed_nan :
  JS.toFixed (fun _ => "NaN") S754_nan 6 = "NaN".
Proof. reflexivity. Qed.

Example toFixed_small_negative :
  JS.toFixed (fun _ => "n") (S754_finite true 1 (-40)) 6 = "-0.000000".
Proof. vm_compute. reflexivity. Qed.

Example toFixed_negative_zero :
  JS.toFixed (fun _ => "n") (S754_zero true) 6 = "0.000000".
Proof. vm_compute. reflexivity. Qed.

(** One half rounds up to one. *)
Example toFixed_half_up :
  JS.toFixed (fun _ => "n") (S754_finite false 1 (-1)) 0 = "1".
Proof. vm_compute. reflexivity. Qed.

(** ** Small facts about the host functions *)

Example split_pop_extension :
  JS.pop (JS.split "." "beach.photo.jpg") = Some "jpg".
Proof. reflexivity. Qed.

Example split_pop_without_dot :
  JS.pop (JS.split "." "IMG0001") = Some "IMG0001".
Proof. reflexivity. Qed.

Example tones_of_final_statuses :
  UploadComponent.statusTone "Report submitted successfully!"
  = UploadComponent.Green
  /\ UploadComponent.statusTone "Upload failed: Bucket not found"
     = UploadComponent.Red
  /\ UploadComponent.statusTone "Database error: timeout"
     = UploadComponent.Red.
Proof. repeat split; reflexivity. Qed.

(** * Further properties *)

(** ** The upload flow under every answer of the outside *)

Local Open Scope string_scope.

(** Splits a run of [handleUpload] on a selected file into the seven ways
    the outside can answer. *)
Ltac upload_cases env :=
  destruct (UploadComponent.currentLocation env) as [?loc | ?t];
  [ destruct (UploadComponent.uploadResult env) as [[?msg | ] | ?t];
    [ | destruct (UploadComponent.insertResult env) as [[?msg | ] | ?t] | ]
  | ].

(** The spinner never stays on: whatever the outside answers, a run on a
    selected file ends with [isUploading] false, and a run without a
    selection does not touch it. *)
Theorem upload_never_leaves_spinner_on :
  forall env s,
    UploadComponent.isUploading (Eff.exec (UploadComponent.handleUpload env) s)
    = match UploadComponent.selectedFile s with
      | Some _ => false
      | None => UploadComponent.isUploading s
      end.
Proof.
  intros env s. unfold_upload.
  destruct (UploadComponent.selectedFile s) as [f|]; [|reflexivity].
  upload_cases env; reflexivity.
Qed.

(** A run reaches the outside in one fixed order and never twice: its
    outside calls are an initial part of location, storage upload, public
    URL, insert, each with the arguments of this run. *)
Theorem outside_calls_follow_one_order :
  forall env s,
    exists rest,
      (UploadComponent.outsideCalls
         (Eff.logOf (UploadComponent.handleUpload env) s) ++ rest)%list
      = match UploadComponent.selectedFile s,
              UploadComponent.currentLocation env with
        | Some f, JS.Resolved loc =>
            let path := UploadComponent.filePathOf env f in
            [ UploadComponent.GetCurrentLocation;
              UploadComponent.StorageUpload "waste-photos" path f;
              UploadComponent.GetPublicUrl "waste-photos" path;
              UploadComponent.DbInsert "reports"
                [ {| Types.new_latitude := Types.loc_latitude loc;
                     Types.new_longitude := Types.loc_longitude loc;
                     Types.new_photo_url :=
                       UploadComponent.publicUrl env "waste-photos" path |} ] ]
        | Some _, JS.Rejected _ => [UploadComponent.GetCurrentLocation]
        | None, _ => []
        end.
Proof.
  intros env s. unfold UploadComponent.outsideCalls. unfold_upload.
  destruct (UploadComponent.selectedFile s) as [f|]; [|exists []; reflexivity].
  upload_cases env; cbn; eexists; reflexivity.
Qed.

(** When the location cannot be obtained, nothing is sent to the bucket or
    the table: the run only asks for the location, reports the rejection's
    message (or "Upload failed" when what was thrown is not an [Error]) and
    keeps the selection for another try. *)
Theorem location_failure_stops_the_flow :
  forall env s f t,
    UploadComponent.selectedFile s = Some f ->
    UploadComponent.currentLocation env = JS.Rejected t ->
    let s' := Eff.exec (UploadComponent.handleUpload env) s in
    let shown := match t with
                 | JS.ErrorObj message => message
                 | JS.OtherThrown => "Upload failed"
                 end in
    Eff.logOf (UploadComponent.handleUpload env) s
      = [ UploadComponent.StatusShown "Getting your location...";
          UploadComponent.GetCurrentLocation;
          UploadComponent.ConsoleError t;
          UploadComponent.StatusShown shown ]
    /\ UploadComponent.uploadStatus s' = shown
    /\ UploadComponent.selectedFile s' = Some f
    /\ UploadComponent.previewUrl s' = UploadComponent.previewUrl s
    /\ UploadComponent.isUploading s' = false.
Proof.
  intros env s f t Hsel Hloc s' shown. subst s' shown.
  unfold_upload. rewrite Hsel, Hloc. cbn.
  repeat split. exact Hsel.
Qed.

Lemma location_failure_stops_the_flow_witness :
  let env :=
    {| UploadComponent.createObjectURL := fun f => "blob:" ++ Types.name f;
       UploadComponent.dateNow := 1714557600000;
       UploadComponent.mathRandom36 := "0.k2j5x9q1";
       UploadComponent.currentLocation :=
         JS.Rejected (JS.ErrorObj "Location access denied");
       UploadComponent.uploadResult := JS.Resolved None;
       UploadComponent.publicUrl := fun _ path => path;
       UploadComponent.insertResult := JS.Resolved None |} in
  let s := Eff.exec (UploadComponent.handleFileSelect env (Some Samples.photo))
             UploadComponent.initialState in
  UploadComponent.uploadStatus (Eff.exec (UploadComponent.handleUpload env) s)
  = "Location access denied".
Proof.
  intros env s.
  exact (proj1 (proj2 (location_failure_stops_the_flow
                         env s Samples.photo
                         (JS.ErrorObj "Location access denied")
                         eq_refl eq_refl))).
Defined.

(** When the insert fails after the object was stored, the object stays in
    the bucket: the run makes no further storage call, reports
    "Database error: " and the message, does not notify the parent, arms no
    timer and keeps the selection. *)
Theorem insert_failure_leaves_stored_object :
  forall env s f loc msg,
    UploadComponent.selectedFile s = Some f ->
    UploadComponent.currentLocation env = JS.Resolved loc ->
    UploadComponent.uploadResult env = JS.Resolved None ->
    UploadComponent.insertResult env = JS.Resolved (Some msg) ->
    let s' := Eff.exec (UploadComponent.handleUpload env) s in
    let log := Eff.logOf (UploadComponent.handleUpload env) s in
    let path := UploadComponent.filePathOf env f in
    UploadComponent.outsideCalls log
      = [ UploadComponent.GetCurrentLocation;
          UploadComponent.StorageUpload "waste-photos" path f;
          UploadComponent.GetPublicUrl "waste-photos" path;
          UploadComponent.DbInsert "reports"
            [ {| Types.new_latitude := Types.loc_latitude loc;
                 Types.new_longitude := Types.loc_longitude loc;
                 Types.new_photo_url :=
                   UploadComponent.publicUrl env "waste-photos" path |} ] ]
    /\ UploadComponent.uploadStatus s' = "Database error: " ++ msg
    /\ existsb UploadComponent.isOnUploadSuccess log = false
    /\ existsb UploadComponent.isSetTimeout log = false
    /\ UploadComponent.selectedFile s' = Some f
    /\ UploadComponent.isUploading s' = false.
Proof.
  intros env s f loc msg Hsel Hloc Hup Hins s' log path. subst s' log path.
  unfold UploadComponent.outsideCalls. unfold_upload.
  rewrite Hsel, Hloc, Hup, Hins. cbn.
  repeat split. exact Hsel.
Qed.

Lemma insert_failure_leaves_stored_object_witness :
  let env :=
    {| UploadComponent.createObjectURL := fun f => "blob:" ++ Types.name f;
       UploadComponent.dateNow := 1714557600000;
       UploadComponent.mathRandom36 := "0.k2j5x9q1";
       UploadComponent.currentLocation := JS.Resolved Samples.here;
       UploadComponent.uploadResult := JS.Resolved None;
       UploadComponent.publicUrl := fun _ path => path;
       UploadComponent.insertResult := JS.Resolved (Some "timeout") |} in
  let s := Eff.exec (UploadComponent.handleFileSelect env (Some Samples.photo))
             UploadComponent.initialState in
  UploadComponent.uploadStatus (Eff.exec (UploadComponent.handleUpload env) s)
  = "Database error: timeout".
Proof.
  intros env s.
  exact (proj1 (proj2 (insert_failure_leaves_stored_object
                         env s Samples.photo Samples.here "timeout"
                         eq_refl eq_refl eq_refl eq_refl))).
Defined.

(** The parent is notified, the timer armed and the selection given up
    exactly when a file was selected and all three steps succeeded. *)
Theorem success_effects_iff_all_steps_succeed :
  forall env s f,
    UploadComponent.selectedFile s = Some f ->
    let s' := Eff.exec (UploadComponent.handleUpload env) s in
    let log := Eff.logOf (UploadComponent.handleUpload env) s in
    existsb UploadComponent.isOnUploadSuccess log
      = UploadComponent.allSucceed env
    /\ existsb UploadComponent.isSetTimeout log
       = UploadComponent.allSucceed env
    /\ UploadComponent.selectedFile s'
       = (if UploadComponent.allSucceed env then None else Some f)
    /\ UploadComponent.previewUrl s'
       = (if UploadComponent.allSucceed env then ""
          else UploadComponent.previewUrl s).
Proof.
  intros env s f Hsel s' log. subst s' log.
  unfold UploadComponent.allSucceed. unfold_upload. rewrite Hsel.
  upload_cases env; cbn; repeat split; exact Hsel.
Qed.

Lemma success_effects_iff_all_steps_succeed_witness :
  let s := Eff.exec (UploadComponent.handleFileSelect Samples.bucketRefuses
                       (Some Samples.photo)) UploadComponent.initialState in
  existsb UploadComponent.isOnUploadSuccess
    (Eff.logOf (UploadComponent.handleUpload Samples.bucketRefuses) s)
  = UploadComponent.allSucceed Samples.bucketRefuses.
Proof.
  intros s.
  exact (proj1 (success_effects_iff_all_steps_succeed
                  Samples.bucketRefuses s Samples.photo eq_refl)).
Defined.

(** Without a selection the run only shows "Please select a photo first":
    no call leaves the component and no other cell changes. *)
Theorem upload_without_selection_only_prompts :
  forall env s,
    UploadComponent.selectedFile s = None ->
    let s' := Eff.exec (UploadComponent.handleUpload env) s in
    Eff.logOf (UploadComponent.handleUpload env) s
      = [UploadComponent.StatusShown "Please select a photo first"]
    /\ s' = {| UploadComponent.isUploading := UploadComponent.isUploading s;
               UploadComponent.uploadStatus := "Please select a photo first";
               UploadComponent.selectedFile := None;
               UploadComponent.previewUrl := UploadComponent.previewUrl s;
               UploadComponent.fileInputValue :=
                 UploadComponent.fileInputValue s |}.
Proof.
  intros env s Hsel s'. subst s'. unfold_upload. rewrite Hsel. cbn.
  rewrite Hsel. split; reflexivity.
Qed.

Lemma upload_without_selection_only_prompts_witness :
  Eff.logOf (UploadComponent.handleUpload Samples.allGood)
    UploadComponent.initialState
  = [UploadComponent.StatusShown "Please select a photo first"].
Proof.
  exact (proj1 (upload_without_selection_only_prompts
                  Samples.allGood UploadComponent.initialState eq_refl)).
Defined.

(** ** Selection, preview and what reaches the bucket *)

Section UploadInvariants.
Import Types UploadComponent.

(** [clearSelection] forgets the file, the preview and the status, and
    empties the file input when it is mounted; a second call changes
    nothing, and an upload asked for right after it only gets the prompt to
    select a photo. *)
Theorem clearSelection_resets_and_is_idempotent :
  forall env s,
    let cleared := Eff.exec clearSelection s in
    selectedFile cleared = None
    /\ previewUrl cleared = ""
    /\ uploadStatus cleared = ""
    /\ isUploading cleared = isUploading s
    /\ fileInputValue cleared
       = match fileInputValue s with Some _ => Some "" | None => None end
    /\ Eff.exec clearSelection cleared = cleared
    /\ existsb isOutsideCall (Eff.logOf clearSelection s) = false
    /\ Eff.logOf (handleUpload env) cleared
       = [StatusShown "Please select a photo first"].
Proof.
  intros env s cleared. subst cleared.
  unfold Eff.exec, Eff.logOf, clearSelection; cbn.
  repeat split. destruct (fileInputValue s); reflexivity.
Qed.

(** Selecting a file never reaches the location provider or the backend,
    whatever the file and the state; without a file the handler does
    nothing at all. *)
Theorem file_selection_stays_local :
  forall env file s,
    existsb isOutsideCall (Eff.logOf (handleFileSelect env file) s) = false
    /\ uploadedFiles (Eff.logOf (handleFileSelect env file) s) = []
    /\ Eff.exec (handleFileSelect env None) s = s
    /\ Eff.logOf (handleFileSelect env None) s = [].
Proof.
  intros env [f|] s.
  - unfold Eff.logOf, handleFileSelect.
    destruct (negb (JS.startsWith (type f) "image/"));
      [repeat split|].
    destruct (maxFileSize <? size f)%N; repeat split.
  - repeat split.
Qed.

(** With a run pending or not, a preview is only ever shown for a selected
    file. *)
Lemma run_preview_needs_selection s pending :
  ReachableRun s pending -> selectedFile s = None -> previewUrl s = "".
Proof.
  induction 1 as [ | env file s Hs IH | s Hs IH | env s Hs IH
                   | s pending Hs IH | cb s pending Hs IH
                   | s pending Hs IH ].
  - reflexivity.
  - destruct file as [g|]; [|exact IH].
    destruct (acceptable g) eqn:Hg.
    + rewrite handleFileSelect_accepted by assumption. discriminate.
    + destruct (not_acceptable_cases g Hg) as [Hty | [Hty Hsz]];
        unfold Eff.exec;
        [ rewrite handleFileSelect_not_image by assumption
        | rewrite handleFileSelect_too_large by assumption ];
        exact IH.
  - reflexivity.
  - destruct (handleUploadStart_selection env s) as [Hsel Hprev].
    rewrite Hsel, Hprev. exact IH.
  - destruct (handleUploadResume_selection pending s)
      as [[Hsel Hprev] | [Hsel Hprev]]; rewrite Hprev.
    + rewrite Hsel. exact IH.
    + reflexivity.
  - destruct cb. exact IH.
  - exact IH.
Qed.

Lemma preview_needs_selection s :
  Reachable s -> selectedFile s = None -> previewUrl s = "".
Proof.
  intros [pending Hrun]. exact (run_preview_needs_selection s pending Hrun).
Qed.

(** While a run is pending, the file it began with is still the selected
    one. *)
Lemma pending_file_is_selected s pending :
  ReachableRun s pending ->
  match pending with
  | NoRun => True
  | AwaitingLocation _ f | AwaitingUpload _ f _ | AwaitingInsert _ f _ =>
      selectedFile s = Some f
  end.
Proof.
  induction 1 as [ | env file s Hs IH | s Hs IH | env s Hs IH
                   | s pending Hs IH | cb s pending Hs IH
                   | s pending Hs IH ]; try exact I.
  - unfold pendingAfter, Eff.exec, handleUploadStart, Eff.bind, Eff.gets.
    destruct (selectedFile s) as [g|] eqn:Hsel; cbn; [exact Hsel | exact I].
  - revert IH. unfold pendingAfter, Eff.exec.
    destruct pending as [ | env g | env g loc | env g loc ];
      unfold handleUploadResume, stretch, onUploadError, Eff.tryCatchFinally,
        Eff.bind, Eff.await.
    + intros _. exact I.
    + destruct (currentLocation env) as [loc|t]; cbn; intros IH;
        [exact IH | exact I].
    + destruct (uploadResult env) as [[msg|]|t]; cbn; intros IH;
        solve [exact IH | exact I].
    + destruct (insertResult env) as [[msg|]|t]; cbn; intros _; exact I.
  - destruct cb. exact IH.
  - exact IH.
Qed.

(** Every file a run hands to the bucket is the selected one, and in a
    reachable state that is an image of at most 5 MiB. *)
Theorem only_checked_files_reach_the_bucket :
  forall env s f,
    Reachable s ->
    In f (uploadedFiles (Eff.logOf (handleUpload env) s)) ->
    selectedFile s = Some f
    /\ JS.startsWith (type f) "image/" = true
    /\ (size f <= 5 * 1024 * 1024)%N.
Proof.
  intros env s f Hreach Hin.
  assert (Hsel : selectedFile s = Some f).
  { revert Hin. unfold_upload.
    destruct (selectedFile s) as [g|]; [|intros []].
    upload_cases env; cbn; intros H;
      solve [ contradiction
            | destruct H as [-> | []]; reflexivity ]. }
  split; [exact Hsel|].
  pose proof (selection_is_acceptable s Hreach f Hsel) as Hacc.
  unfold acceptable in Hacc. apply andb_true_iff in Hacc as [Hty Hsz].
  split; [exact Hty|].
  apply negb_true_iff, N.ltb_ge in Hsz. exact Hsz.
Qed.

Lemma only_checked_files_reach_the_bucket_witness :
  let s := Eff.exec (handleFileSelect Samples.allGood (Some Samples.photo))
             initialState in
  selectedFile s = Some Samples.photo
  /\ JS.startsWith (type Samples.photo) "image/" = true
  /\ (size Samples.photo <= 5 * 1024 * 1024)%N.
Proof.
  intros s.
  apply (only_checked_files_reach_the_bucket Samples.allGood s Samples.photo).
  - exists NoRun. apply RunFileSelect, RunInitial.
  - left. reflexivity.
Defined.

(** What is drawn in a reachable state, in the middle of a run included.
    The submit button is enabled only with a checked file selected and no
    upload running; the preview and the clear button only appear together
    with a selected file.  While an upload is running, between its awaits,
    the file input, the submit button and the clear button are all
    disabled. *)
Theorem submit_needs_a_checked_file :
  forall s,
    Reachable s ->
    (submitDisabled (render s) = false ->
     isUploading s = false
     /\ exists f, selectedFile s = Some f /\ acceptable f = true)
    /\ (preview (render s) <> None -> fileLabel (render s) <> None)
    /\ (clearButton (render s) = None <-> selectedFile s = None)
    /\ (selectedFile s = None -> preview (render s) = None)
    /\ (isUploading s = true ->
        submitDisabled (render s) = true
        /\ inputDisabled (render s) = true
        /\ clearButton (render s) = Some true
        /\ submitSpinner (render s) = true).
Proof.
  intros s Hreach.
  assert (Hnone : selectedFile s = None -> preview (render s) = None).
  { intros Hsel. unfold render; cbn.
    now rewrite (preview_needs_selection s Hreach Hsel). }
  split; [|split; [|split; [|split]]].
  - intros H. unfold render in H; cbn in H. split.
    + destruct (selectedFile s); cbn in H; [exact H | discriminate].
    + destruct (selectedFile s) as [f|] eqn:Hsel; [|discriminate].
      exists f. split; [reflexivity|].
      now apply (selection_is_acceptable s Hreach).
  - intros Hprev Hlabel. apply Hprev, Hnone.
    unfold render in Hlabel; cbn in Hlabel.
    destruct (selectedFile s); [discriminate | reflexivity].
  - unfold render; cbn. split.
    + destruct (selectedFile s); [discriminate | reflexivity].
    + intros Hsel. now rewrite Hsel.
  - exact Hnone.
  - intros Hup. destruct Hreach as [pending Hrun].
    pose proof (uploading_while_pending s pending Hrun) as Hflag.
    pose proof (pending_file_is_selected s pending Hrun) as Hfile.
    rewrite Hup in Hflag.
    unfold render; cbn. rewrite Hup.
    destruct pending as [ | env g | env g loc | env g loc ];
      [discriminate | | | ]; rewrite Hfile; repeat split.
Qed.

(** The theorem at a state between runs, where the button is enabled, and
    at a state in the middle of a run, where it is not. *)
Lemma submit_needs_a_checked_file_witness :
  let selected := Eff.exec (handleFileSelect Samples.allGood
                              (Some Samples.photo)) initialState in
  let waiting := Eff.exec (handleUploadStart Samples.allGood) selected in
  (isUploading selected = false
   /\ exists f, selectedFile selected = Some f /\ acceptable f = true)
  /\ isUploading waiting = true
  /\ submitDisabled (render waiting) = true
  /\ inputDisabled (render waiting) = true
  /\ clearButton (render waiting) = Some true
  /\ submitSpinner (render waiting) = true.
Proof.
  intros selected waiting.
  assert (Hselected : ReachableRun selected NoRun)
    by apply RunFileSelect, RunInitial.
  split; [|split; [reflexivity|]].
  - apply (proj1 (submit_needs_a_checked_file selected
                    (ex_intro _ NoRun Hselected))).
    reflexivity.
  - apply (proj2 (proj2 (proj2 (proj2
             (submit_needs_a_checked_file waiting
                (ex_intro _ _ (RunStart Samples.allGood selected
                                 Hselected))))))).
    reflexivity.
Defined.

End UploadInvariants.

(** ** The colour of the status line *)

Lemma includes_at (s p : string) (m : nat) :
  p <> "" ->
  String.substring m (String.length p) s = p ->
  JS.includes s p = true.
Proof.
  intros Hp Hsub. unfold JS.includes.
  destruct (String.index 0 p s) eqn:Hidx; [reflexivity|].
  exfalso. apply (String.index_correct3 0 m p s Hidx Hp (Nat.le_0_l m)).
  exact Hsub.
Qed.

(** A storage or database failure is never drawn in the informational blue,
    whatever the backend's message: the status holds the word "failed" or
    "error", so it is red, or green when the message happens to hold
    "success". *)
Theorem backend_failures_are_never_blue :
  forall msg,
    UploadComponent.statusTone ("Upload failed: " ++ msg)
      <> UploadComponent.Blue
    /\ UploadComponent.statusTone ("Database error: " ++ msg)
       <> UploadComponent.Blue
    /\ UploadComponent.statusTone "Upload failed" = UploadComponent.Red.
Proof.
  intros msg.
  assert (Hfailed : JS.includes ("Upload failed: " ++ msg) "failed" = true).
  { apply (includes_at _ _ 7); [discriminate | reflexivity]. }
  assert (Herror : JS.includes ("Database error: " ++ msg) "error" = true).
  { apply (includes_at _ _ 9); [discriminate | reflexivity]. }
  unfold UploadComponent.statusTone. rewrite Hfailed, Herror, orb_true_r.
  repeat split.
  - destruct (JS.includes ("Upload failed: " ++ msg) "success"); discriminate.
  - destruct (JS.includes ("Database error: " ++ msg) "success"); discriminate.
Qed.

(** A backend message that holds "success" turns the failure green, and a
    location error is blue unless its text says "error" or "failed". *)
Example misleading_tones :
  UploadComponent.statusTone "Upload failed: unsuccessful write"
  = UploadComponent.Green
  /\ UploadComponent.statusTone "Location access denied"
     = UploadComponent.Blue.
Proof. split; reflexivity. Qed.

(** ** Splitting a file name *)

Section Split.
Import JS.

Lemma split_not_empty sep s : split sep s <> [].
Proof.
  destruct s as [|c s]; simpl; [discriminate|].
  destruct (Ascii.eqb c sep); [discriminate|].
  destruct (split sep s); discriminate.
Qed.

(** [s.split(sep).join(sep)] gives [s] back. *)
Theorem split_join_round_trip :
  forall sep s, String.concat (String sep "") (split sep s) = s.
Proof.
  intros sep s. induction s as [|c s IH]; [reflexivity|].
  simpl split. destruct (Ascii.eqb_spec c sep) as [-> | Hne].
  - pose proof (split_not_empty sep s) as Hnil.
    destruct (split sep s) as [|seg segs]; [contradiction|].
    change (String.concat (String sep "") ("" :: seg :: segs))
      with ("" ++ String sep "" ++ String.concat (String sep "") (seg :: segs)).
    rewrite IH. reflexivity.
  - pose proof (split_not_empty sep s) as Hnil.
    destruct (split sep s) as [|seg segs]; [contradiction|].
    destruct segs as [|seg' segs].
    + simpl in IH. simpl. now rewrite IH.
    + change (String.concat (String sep "") (String c seg :: seg' :: segs))
        with (String c (seg ++ String sep ""
                ++ String.concat (String sep "") (seg' :: segs))).
      change (String.concat (String sep "") (seg :: seg' :: segs))
        with (seg ++ String sep ""
                ++ String.concat (String sep "") (seg' :: segs)) in IH.
      now rewrite IH.
Qed.

Lemma split_segments_have_no_separator sep s :
  Forall (fun seg => contains sep seg = false) (split sep s).
Proof.
  induction s as [|c s IH]; simpl.
  - constructor; [reflexivity | constructor].
  - destruct (Ascii.eqb c sep) eqn:Hc.
    + constructor; [reflexivity | exact IH].
    + destruct (split sep s) as [|seg segs]; inversion IH; subst.
      * constructor; [simpl; now rewrite Hc | constructor].
      * constructor; [simpl; now rewrite Hc | assumption].
Qed.

Lemma last_of_cons {A} (xs : list A) :
  forall x d, List.last (x :: xs) d = List.last xs x.
Proof.
  induction xs as [|y ys IH]; intros x d; [reflexivity|].
  change (List.last (x :: y :: ys) d) with (List.last (y :: ys) d).
  change (List.last (y :: ys) x) with (List.last (y :: ys) x).
  now rewrite !IH.
Qed.

Lemma string_app_assoc (a b c : string) : (a ++ b) ++ c = a ++ b ++ c.
Proof. induction a as [|x a IH]; simpl; [reflexivity | now rewrite IH]. Qed.

Lemma concat_snoc sep (init : list string) e :
  init <> [] ->
  String.concat sep (init ++ [e])%list = String.concat sep init ++ sep ++ e.
Proof.
  induction init as [|x init IH]; intros Hne; [contradiction|].
  destruct init as [|y init]; [reflexivity|].
  change (String.concat sep ((x :: y :: init) ++ [e])%list)
    with (x ++ sep ++ String.concat sep ((y :: init) ++ [e])%list).
  rewrite IH by discriminate.
  change (String.concat sep (x :: y :: init))
    with (x ++ sep ++ String.concat sep (y :: init)).
  now rewrite !string_app_assoc.
Qed.

(** The extension put in the storage key: [name.split('.').pop()] is never
    [undefined]; it holds no dot, and it is the whole name when the name has
    no dot, the part after the last dot otherwise. *)
Theorem extension_is_the_part_after_the_last_dot :
  forall sep s,
    exists ext,
      pop (split sep s) = Some ext
      /\ contains sep ext = false
      /\ (s = ext \/ exists stem, s = stem ++ String sep ext).
Proof.
  intros sep s.
  pose proof (split_not_empty sep s) as Hne.
  pose proof (split_segments_have_no_separator sep s) as Hall.
  pose proof (split_join_round_trip sep s) as Hjoin.
  destruct (split sep s) as [|x xs] eqn:Hsplit; [contradiction|].
  exists (List.last xs x). split; [reflexivity|].
  pose proof (app_removelast_last x Hne) as Hlast.
  rewrite last_of_cons in Hlast.
  split.
  - rewrite Hlast in Hall. apply Forall_app in Hall as [_ Hall].
    now inversion Hall.
  - rewrite Hlast in Hjoin.
    destruct (removelast (x :: xs)) as [|i init] eqn:Hinit.
    + left. simpl in Hjoin. now symmetry.
    + right. rewrite concat_snoc in Hjoin by discriminate.
      exists (String.concat (String sep "") (i :: init)).
      rewrite <- Hjoin. reflexivity.
Qed.

End Split.

(** ** Storage keys *)

Section StorageKeys.
Import Types UploadComponent.

Lemma digits_then_dash_unique a :
  forall b x y,
    JS.allDigits a = true -> JS.allDigits b = true ->
    a ++ String "-" x = b ++ String "-" y -> a = b.
Proof.
  induction a as [|c a IH]; intros [|d b] x y Ha Hb Heq.
  - reflexivity.
  - simpl in Heq. inversion Heq; subst d. simpl in Hb. discriminate.
  - simpl in Heq. inversion Heq; subst c. simpl in Ha. discriminate.
  - simpl in Heq. inversion Heq; subst d. f_equal.
    simpl in Ha, Hb.
    apply andb_true_iff in Ha as [_ Ha]. apply andb_true_iff in Hb as [_ Hb].
    now apply (IH b x y).
Qed.

Lemma digits_injective n1 n2 : JS.digits n1 = JS.digits n2 -> n1 = n2.
Proof.
  unfold JS.digits. intros H.
  apply DecimalN.Unsigned.to_uint_inj.
  pose proof (NilEmpty.usu (N.to_uint n1)) as H1.
  rewrite H, NilEmpty.usu in H1. now inversion H1.
Qed.

Lemma substringFrom_short n s :
  String.length s <= n -> JS.substringFrom n s = "".
Proof.
  unfold JS.substringFrom. intros Hlen.
  replace (String.length s - n) with 0 by lia.
  clear Hlen. revert s. induction n as [|n IH]; intros [|c s]; simpl; auto.
Qed.

(** Two runs whose [Date.now()] differ store under different keys, whatever
    the files and the random parts; the random part alone is no protection
    within one millisecond, and it is empty when [Math.random()] prints in
    at most seven characters. *)
Theorem storage_keys_differ_across_milliseconds :
  forall env1 env2 f1 f2,
    (dateNow env1 <> dateNow env2 ->
     filePathOf env1 f1 <> filePathOf env2 f2)
    /\ (dateNow env1 = dateNow env2 ->
        JS.substringFrom 7 (mathRandom36 env1)
          = JS.substringFrom 7 (mathRandom36 env2) ->
        JS.pop (JS.split "." (name f1)) = JS.pop (JS.split "." (name f2)) ->
        filePathOf env1 f1 = filePathOf env2 f2)
    /\ (String.length (mathRandom36 env1) <= 7 ->
        filePathOf env1 f1
        = "photos/" ++ JS.digits (dateNow env1) ++ "-."
          ++ JS.interpolate (JS.pop (JS.split "." (name f1)))).
Proof.
  intros env1 env2 f1 f2. repeat split.
  - intros Hne Heq. apply Hne. unfold filePathOf in Heq.
    cbv zeta in Heq. simpl in Heq.
    repeat match type of Heq with
           | String ?c _ = String ?c _ => injection Heq as Heq
           end.
    apply digits_injective.
    eapply digits_then_dash_unique; eauto using allDigits_digits.
  - intros Hnow Hrnd Hext. unfold filePathOf. now rewrite Hnow, Hrnd, Hext.
  - intros Hlen. unfold filePathOf.
    now rewrite (substringFrom_short 7 _ Hlen).
Qed.

Lemma storage_keys_differ_across_milliseconds_witness :
  let later :=
    {| createObjectURL := createObjectURL Samples.allGood;
       dateNow := 1714557600001;
       mathRandom36 := mathRandom36 Samples.allGood;
       currentLocation := currentLocation Samples.allGood;
       uploadResult := uploadResult Samples.allGood;
       publicUrl := publicUrl Samples.allGood;
       insertResult := insertResult Samples.allGood |} in
  filePathOf Samples.allGood Samples.photo <> filePathOf later Samples.photo.
Proof.
  intros later.
  apply (proj1 (storage_keys_differ_across_milliseconds
                  Samples.allGood later Samples.photo Samples.photo)).
  discriminate.
Defined.

End StorageKeys.

(** ** What the location line says about the coordinates *)

Section ReadBack.
Import JS.

(** The accuracy of the location line.  For finite coordinates of magnitude
    below [10^21], each of the two numerals is a sign, a whole part, the
    point and six digits; read without the point it is the integer nearest
    to the coordinate's magnitude times [10^6], the upper one when two are
    equally near.  So what is shown is off by at most half a millionth of a
    degree. *)
Theorem location_line_is_nearest_millionth :
  forall numberToString s1 m1 e1 s2 m2 e2,
    atLeast1e21 m1 e1 = false ->
    atLeast1e21 m2 e2 = false ->
    let nearest m e n :=
      (0 <= n)%Z
      /\ ((0 <= e)%Z -> n = (Z.pos m * 2 ^ e * 10 ^ 6)%Z)
      /\ ((e < 0)%Z ->
          (2 * n * 2 ^ (- e) <= 2 * Z.pos m * 10 ^ 6 + 2 ^ (- e)
           < 2 * (n + 1) * 2 ^ (- e))%Z) in
    exists w1 f1 n1 w2 f2 n2,
      ReportModal.formatCoordinates numberToString
        (S754_finite s1 m1 e1) (S754_finite s2 m2 e2)
      = ((if s1 then "-" else "") ++ w1 ++ "." ++ f1) ++ ", "
        ++ ((if s2 then "-" else "") ++ w2 ++ "." ++ f2)
      /\ String.length f1 = 6 /\ String.length f2 = 6
      /\ readDigits (w1 ++ f1) = Some (Z.to_N n1)
      /\ readDigits (w2 ++ f2) = Some (Z.to_N n2)
      /\ nearest m1 e1 n1 /\ nearest m2 e2 n2.
Proof.
  intros nts s1 m1 e1 s2 m2 e2 H1 H2 nearest.
  assert (Hnear : forall m e, nearest m e (nearestScaled m e 6)).
  { intros m e. subst nearest. cbv beta. split; [apply nearestScaled_nonneg|].
    split.
    - intros He. unfold nearestScaled.
      destruct (Z.leb_spec 0 e); [reflexivity | lia].
    - intros He. exact (nearestScaled_is_nearest m e 6 He). }
  destruct (fixedDigits_read_back (nearestScaled m1 e1 6) 6 ltac:(lia))
    as (w1 & f1 & Heq1 & Hl1 & Hr1).
  destruct (fixedDigits_read_back (nearestScaled m2 e2 6) 6 ltac:(lia))
    as (w2 & f2 & Heq2 & Hl2 & Hr2).
  exists w1, f1, (nearestScaled m1 e1 6), w2, f2, (nearestScaled m2 e2 6).
  unfold ReportModal.formatCoordinates, toFixed.
  rewrite H1, H2, Heq1, Heq2.
  split; [reflexivity|]. split; [exact Hl1|]. split; [exact Hl2|].
  split; [exact Hr1|]. split; [exact Hr2|].
  split; apply Hnear.
Qed.

Lemma location_line_is_nearest_millionth_witness :
  exists w1 f1 n1 w2 f2 n2,
    ReportModal.formatCoordinates (fun _ => "n") Samples.lat0 Samples.lng0
    = ((if false then "-" else "") ++ w1 ++ "." ++ f1) ++ ", "
      ++ ((if false then "-" else "") ++ w2 ++ "." ++ f2)
    /\ String.length f1 = 6 /\ String.length f2 = 6
    /\ readDigits (w1 ++ f1) = Some (Z.to_N n1)
    /\ readDigits (w2 ++ f2) = Some (Z.to_N n2).
Proof.
  destruct (location_line_is_nearest_millionth (fun _ => "n")
              false 4585351219606339 (-48) false 5661558830373022 (-46)
              eq_refl eq_refl)
    as (w1 & f1 & n1 & w2 & f2 & n2 & Heq & Hl1 & Hl2 & Hr1 & Hr2 & _).
  exists w1, f1, n1, w2, f2, n2.
  repeat split; assumption.
Defined.

End ReadBack.

(** ** The page over whole traces *)

Section PageTraces.
Import Types Home.
Local Open Scope list_scope.

(** A property of the start state that every action keeps holds after any
    trace. *)
Lemma run_keeps (P : State -> Prop) :
  (forall s a, P s -> P (step s a)) ->
  forall trace s, P s -> P (run s trace).
Proof.
  intros Hstep trace. induction trace as [|a trace IH]; intros s Hs.
  - exact Hs.
  - apply (IH (step s a)). now apply Hstep.
Qed.

Lemma step_keeps_modal_in_step s a :
  isModalOpen s = match selectedReport s with Some _ => true | None => false end ->
  isModalOpen (step s a)
  = match selectedReport (step s a) with Some _ => true | None => false end.
Proof.
  intros H. destruct a as [ | settled | r | | [[r|]] | | | ]; try exact H;
    try reflexivity.
  destruct settled as [[rows [err|]] | t]; exact H.
Qed.

(** The modal is open exactly while a report is selected: after any trace
    from the initial state, the page's detail modal shows the selected
    report's view, and nothing when no report is selected. *)
Theorem modal_shows_exactly_the_selected_report :
  forall numberToString formatTimestamp trace,
    let s := run initialState trace in
    isModalOpen s
      = match selectedReport s with Some _ => true | None => false end
    /\ ReportModal.ReportModal numberToString formatTimestamp
         (selectedReport s) (isModalOpen s)
       = option_map (ReportModal.view numberToString formatTimestamp)
           (selectedReport s).
Proof.
  intros nts ft trace s.
  assert (H : isModalOpen s
              = match selectedReport s with Some _ => true | None => false end).
  { subst s. apply run_keeps; [apply step_keeps_modal_in_step | reflexivity]. }
  split; [exact H|].
  rewrite H. destruct (selectedReport s); reflexivity.
Qed.

Lemma step_keeps_loaded s a : isLoading s = false -> isLoading (step s a) = false.
Proof.
  intros H. destruct a as [ | settled | r | | [[r|]] | | | ]; try exact H.
  destruct settled as [[rows [err|]] | t]; reflexivity.
Qed.

Lemma loading_flag trace :
  forall s0,
    isLoading s0 = true ->
    isLoading (run s0 trace) = negb (existsb isFetchSettled trace).
Proof.
  induction trace as [|a trace IH]; intros s0 Hs0; [exact Hs0|].
  change (run s0 (a :: trace)) with (run (step s0 a) trace).
  simpl existsb. destruct (isFetchSettled a) eqn:Ha.
  - simpl. apply (run_keeps (fun st => isLoading st = false));
      [apply step_keeps_loaded|].
    destruct a as [ | settled | r | | info | | | ]; try discriminate.
    destruct settled as [[rows [err|]] | t]; reflexivity.
  - simpl. apply IH.
    destruct a as [ | settled | r | | [[r|]] | | | ];
      try discriminate; exact Hs0.
Qed.

(** The loading screen is shown from mount until the first fetch settles,
    whatever else happens meanwhile, and never again afterwards: later
    fetches run behind the page. *)
Theorem loading_screen_until_first_settle :
  forall numberToString formatTimestamp trace,
    let s := run initialState trace in
    isLoading s = negb (existsb isFetchSettled trace)
    /\ (existsb isFetchSettled trace = false ->
        render numberToString formatTimestamp s = LoadingScreen)
    /\ (existsb isFetchSettled trace = true ->
        render numberToString formatTimestamp s <> LoadingScreen).
Proof.
  intros nts ft trace s.
  assert (H : isLoading s = negb (existsb isFetchSettled trace)).
  { subst s. now apply loading_flag. }
  split; [exact H|]. split; intros Hex; unfold render; rewrite H, Hex.
  - reflexivity.
  - simpl. destruct (negb (error s =? "")%string); discriminate.
Qed.

Lemma loading_screen_until_first_settle_witness :
  render (fun _ => "n") (fun ts => ts)
    (run initialState [FetchStarted; Inserted Samples.r1]) = LoadingScreen.
Proof.
  apply (proj1 (proj2 (loading_screen_until_first_settle
                         (fun _ => "n") (fun ts => ts)
                         [FetchStarted; Inserted Samples.r1]))).
  reflexivity.
Defined.

(** Opening a report and closing the modal again leaves the page as it was,
    when nothing was selected before; closing is idempotent. *)
Theorem click_then_close_restores_the_page :
  forall s r,
    selectedReport s = None ->
    isModalOpen s = false ->
    run s [MapClicked {| MapComponent.object := Some r |}; ModalClosed] = s
    /\ step (step s ModalClosed) ModalClosed = step s ModalClosed.
Proof.
  intros [reps sel open loading err up] r Hsel Hopen.
  simpl in Hsel, Hopen. subst sel open. split; reflexivity.
Qed.

Lemma click_then_close_restores_the_page_witness :
  run mounted [MapClicked {| MapComponent.object := Some Samples.r1 |};
               ModalClosed] = mounted.
Proof.
  exact (proj1 (click_then_close_restores_the_page
                  mounted Samples.r1 eq_refl eq_refl)).
Defined.

(** A fetch that succeeds does not clear the error message: only starting a
    fetch does.  So when two fetches overlap and the first to settle fails,
    the success of the other stores its rows while the page goes on showing
    the error screen. *)
Theorem late_success_does_not_clear_the_error :
  forall numberToString formatTimestamp s F,
    error (step s (fetched F)) = error s
    /\ (forall failure,
          (exists t, failure = JS.Rejected t)
          \/ (exists rows err,
                failure = JS.Resolved {| data := rows; queryError := Some err |}) ->
          let s' := run s [ FetchStarted; UploadSucceeded;
                            FetchSettled failure; fetched F ] in
          reports s' = F
          /\ error s' = "Failed to load reports"%string
          /\ render numberToString formatTimestamp s'
             = ErrorScreen "Failed to load reports").
Proof.
  intros nts ft s F. split; [reflexivity|].
  intros failure [[t ->] | (rows & err & ->)]; repeat split.
Qed.

Lemma late_success_does_not_clear_the_error_witness :
  let s' := run initialState
              [ FetchStarted; UploadSucceeded;
                FetchSettled (JS.Rejected JS.OtherThrown);
                fetched [Samples.r1] ] in
  reports s' = [Samples.r1]
  /\ error s' = "Failed to load reports"%string
  /\ render (fun _ => "n") (fun ts => ts) s'
     = ErrorScreen "Failed to load reports".
Proof.
  apply (proj2 (late_success_does_not_clear_the_error
                  (fun _ => "n") (fun ts => ts) initialState [Samples.r1])).
  left. exists JS.OtherThrown. reflexivity.
Defined.

(** Data and interaction do not touch each other's cells: an action that is
    not a settling fetch or an insert leaves the collection alone, and a
    settling fetch or an insert leaves the selected report and both modals
    alone, so a report open in the modal stays open when the collection is
    replaced. *)
Theorem data_and_interaction_are_separate :
  forall s a,
    (isDataAction a = false -> reports (step s a) = reports s)
    /\ (isDataAction a = true ->
        selectedReport (step s a) = selectedReport s
        /\ isModalOpen (step s a) = isModalOpen s
        /\ isUploadModalOpen (step s a) = isUploadModalOpen s).
Proof.
  intros s a. split; intros Ha.
  - destruct a as [ | settled | r | | [[r|]] | | | ];
      try discriminate; reflexivity.
  - destruct a as [ | settled | r | | info | | | ]; try discriminate.
    + destruct settled as [[rows [err|]] | t]; repeat split.
    + repeat split.
Qed.

Lemma data_and_interaction_are_separate_witness :
  selectedReport
    (step (step mounted (MapClicked {| MapComponent.object := Some Samples.r1 |}))
          (fetched []))
  = Some Samples.r1.
Proof.
  exact (proj1 (proj2 (data_and_interaction_are_separate
                         (step mounted (MapClicked
                            {| MapComponent.object := Some Samples.r1 |}))
                         (fetched [])) eq_refl)).
Defined.

Lemma reports_without_stored_rows trace :
  forallb storesNoRows trace = true ->
  forall s, reports (run s trace) = rev (insertsOf trace) ++ reports s.
Proof.
  induction trace as [|a trace IH]; intros Hall s; [reflexivity|].
  simpl in Hall. apply andb_true_iff in Hall as [Ha Hall].
  change (run s (a :: trace)) with (run (step s a) trace).
  rewrite (IH Hall).
  destruct a as [ | settled | r | | [[r|]] | | | ]; try reflexivity.
  - destruct settled as [[rows [err|]] | t]; try reflexivity.
    discriminate Ha.
  - simpl insertsOf. simpl rev. rewrite <- app_assoc. reflexivity.
Qed.

(** The collection after any trace: the rows of the last fetch that stored
    any, behind the inserts delivered since, latest first; clicks, modal
    actions, started fetches and failed fetches in between change
    nothing.  Inserts delivered before that fetch are gone. *)
Theorem collection_is_last_fetch_plus_later_inserts :
  forall s before a rows after,
    fetchedRows a = Some rows ->
    forallb storesNoRows after = true ->
    reports (run s (before ++ a :: after)) = rev (insertsOf after) ++ rows.
Proof.
  intros s before a rows after Ha Hafter.
  rewrite run_app.
  change (run (run s before) (a :: after))
    with (run (step (run s before) a) after).
  rewrite (reports_without_stored_rows after Hafter). f_equal.
  destruct a as [ | settled | r | | info | | | ]; try discriminate.
  destruct settled as [[[l|] [err|]] | t]; try discriminate;
    simpl in Ha; inversion Ha; reflexivity.
Qed.

Lemma collection_is_last_fetch_plus_later_inserts_witness :
  reports (run mounted
             ([Inserted Samples.r2]
              ++ fetched [Samples.r1]
              :: [UploadSucceeded; Inserted Samples.r2; ModalClosed]))
  = rev (insertsOf [UploadSucceeded; Inserted Samples.r2; ModalClosed])
    ++ [Samples.r1].
Proof.
  exact (collection_is_last_fetch_plus_later_inserts
           mounted [Inserted Samples.r2] (fetched [Samples.r1]) [Samples.r1]
           [UploadSucceeded; Inserted Samples.r2; ModalClosed]
           eq_refl eq_refl).
Defined.

End PageTraces.

(** A run that does send an insert, for the lemma on what an insert
    needs. *)
Lemma insert_needs_location_and_upload_witness :
  (exists loc,
      UploadComponent.currentLocation Samples.allGood = JS.Resolved loc)
  /\ UploadComponent.uploadResult Samples.allGood = JS.Resolved None.
Proof.
  apply (insert_needs_location_and_upload Samples.allGood
           (Eff.exec (UploadComponent.handleFileSelect Samples.allGood
                        (Some Samples.photo)) UploadComponent.initialState)).
  reflexivity.
Defined.
